(** * dn-02: the browser-facing denoise API and its React hook

    A shallow embedding of [src/denoise.ts], of [src/hooks/useAudioDenoiser.ts],
    of the handlers and the render function of the [AudioDenoiser] component
    and of the raw variant of [denoise].

    - JavaScript numbers are IEEE-754 binary64 values, taken from the
      standard library's executable specification [SpecFloat].
    - An [ArrayBuffer] is a list of bytes, a [Float32Array] a list of 4-byte
      cells; a [DataView] write is an in-place list update that throws a
      [RangeError] out of bounds.
    - An [async] function is a function of the outcomes of the operations it
      awaits; the external collaborators (engine loader, engine, platform
      audio decoder, microphone frames) are oracles collected in [Env].
    - The [denoise] namespace object, the promises it memoizes and the
      hook's refs are explicit state. *)

From Stdlib Require Import ZArith Lia List String Ascii Bool.
From Stdlib Require Import Floats.SpecFloat.
From stdpp Require Import base list gmap.

Open Scope Z_scope.

(** ** Errors and fallible code *)

(** A thrown JavaScript [Error]: only its [message] is observed by the code. *)
Record Error := MkError { message : string }.

Inductive result (A : Type) : Type :=
| Ok (a : A)
| Throw (e : Error).
Arguments Ok {A} a.
Arguments Throw {A} e.

Definition bind {A B} (c : result A) (k : A -> result B) : result B :=
  match c with
  | Ok a => k a
  | Throw e => Throw e
  end.

Notation "'let*' x ':=' c 'in' k" := (bind c (fun x => k))
  (at level 10, x pattern, c at level 100, k at level 200).

(** ** JavaScript numbers *)

Module Num.

Definition prec : Z := 53.
Definition emax : Z := 1024.

(** A JavaScript [number]. *)
Definition number : Type := spec_float.

Definition of_Z (z : Z) : number := binary_normalize prec emax z 0 false.

Definition mul (a b : number) : number := SFmul prec emax a b.
Definition div (a b : number) : number := SFdiv prec emax a b.

(** [ToBoolean] on a number: [0], [-0] and [NaN] are falsy. *)
Definition truthy (x : number) : bool :=
  match x with
  | S754_zero _ | S754_nan => false
  | _ => true
  end.

(** The integer part of a finite non-zero value [(-1)^s * m * 2^e]. *)
Definition trunc_finite (s : bool) (m : positive) (e : Z) : Z :=
  cond_Zopp s (Z.shiftl (Z.pos m) e).

(** The common first step of [ToInt16], [ToUint16] and [ToUint32]:
    [NaN], the zeros and the infinities go to [0], every other value is
    truncated towards zero.  The modulus is applied by the writer. *)
Definition to_integral (x : number) : Z :=
  match x with
  | S754_finite s m e => trunc_finite s m e
  | _ => 0
  end.

(** [Math.floor], as an integer, an infinity or [NaN]. *)
Inductive integral :=
| INaN
| IInf (negative : bool)
| IFin (z : Z).

Definition floor (x : number) : integral :=
  match x with
  | S754_nan => INaN
  | S754_infinity s => IInf s
  | S754_zero _ => IFin 0
  | S754_finite s m e =>
      IFin (Z.shiftl (cond_Zopp s (Z.pos m)) e)
  end.

(** [Math.min(a, b)] and [Math.max(a, b)]: [NaN] if either argument is,
    and [-0] is below [+0]. *)
Definition min (a b : number) : number :=
  match SFcompare a b with
  | None => S754_nan
  | Some Lt => a
  | Some Gt => b
  | Some Eq =>
      match a, b with
      | S754_zero sa, S754_zero sb => S754_zero (sa || sb)
      | _, _ => a
      end
  end.

Definition max (a b : number) : number :=
  match SFcompare a b with
  | None => S754_nan
  | Some Gt => a
  | Some Lt => b
  | Some Eq =>
      match a, b with
      | S754_zero sa, S754_zero sb => S754_zero (sa && sb)
      | _, _ => a
      end
  end.

(** [x || d] on an optional number ([undefined] is falsy). *)
Definition or_default (x : option number) (d : number) : number :=
  match x with
  | Some v => if truthy v then v else d
  | None => d
  end.

(** [x] denotes the integer [z] exactly. *)
Definition denotes (x : number) (z : Z) : Prop :=
  match x with
  | S754_zero _ => z = 0
  | S754_finite s m e =>
      if Z.leb 0 e then z = cond_Zopp s (Z.pos m * 2 ^ e)
      else cond_Zopp s (Z.pos m) = z * 2 ^ (- e)
  | _ => False
  end.

End Num.

(** ** Raw memory: [ArrayBuffer], [DataView] and [Float32Array] *)

(** A byte is an integer in [0, 256). *)
Abbreviation ArrayBuffer := (list Z).

(** [new ArrayBuffer(n)]: [n] zero bytes. *)
Definition new_ArrayBuffer (n : nat) : ArrayBuffer := replicate n 0.

Definition RangeError : Error := MkError "Offset is outside the bounds of the DataView".

(** Overwrite [length xs] cells from [offset] on. *)
Fixpoint overwrite {A : Type} (offset : nat) (xs : list A) (l : list A) : list A :=
  match xs with
  | [] => l
  | x :: xs' => overwrite (Datatypes.S offset) xs' (<[offset := x]> l)
  end.

Module DataView.

(** The bytes of [v mod 2^(8*n)], least significant first. *)
Fixpoint le_bytes (n : nat) (v : Z) : list Z :=
  match n with
  | O => []
  | S n' => v mod 256 :: le_bytes n' (v / 256)
  end.

(** Every setter checks [offset + size <= byteLength] first. *)
Definition set_bytes (size : nat) (offset : nat) (v : Z) (buf : ArrayBuffer)
  : result ArrayBuffer :=
  if Nat.leb (offset + size) (length buf)
  then Ok (overwrite offset (le_bytes size v) buf)
  else Throw RangeError.

(** The setters as [createWavFile] calls them (little-endian where the
    size is above one byte).  The value is the integral part of the
    number; the setter wraps it modulo the width, so the signed and the
    unsigned 16-bit setters store the same bytes. *)
Definition setUint8 := set_bytes 1.
Definition setUint16 := set_bytes 2.
Definition setInt16 := set_bytes 2.
Definition setUint32 := set_bytes 4.

(** The readers, for stating what a written buffer holds. *)
Fixpoint of_le_bytes (bs : list Z) : Z :=
  match bs with
  | [] => 0
  | b :: bs' => b + 256 * of_le_bytes bs'
  end.

Definition get_bytes (size : nat) (offset : nat) (buf : ArrayBuffer) : result Z :=
  if Nat.leb (offset + size) (length buf)
  then Ok (of_le_bytes (take size (drop offset buf)))
  else Throw RangeError.

Definition getUint16 := get_bytes 2.
Definition getUint32 := get_bytes 4.

Definition signed16 (u : Z) : Z := if Z.leb (2 ^ 15) u then u - 2 ^ 16 else u.

Definition getInt16 (offset : nat) (buf : ArrayBuffer) : result Z :=
  let* u := getUint16 offset buf in Ok (signed16 u).

End DataView.

(** One cell of a [Float32Array]: the four bytes of a binary32 value as they
    lie in memory (little-endian). *)
Record f32 := F32 { f32_b0 : Z; f32_b1 : Z; f32_b2 : Z; f32_b3 : Z }.

Definition f32_bytes (x : f32) : list Z :=
  [f32_b0 x; f32_b1 x; f32_b2 x; f32_b3 x].

(** Reading a cell converts the binary32 value to a number exactly. *)
Definition f32_to_number (x : f32) : Num.number :=
  let bits := DataView.of_le_bytes (f32_bytes x) in
  let s := Z.testbit bits 31 in
  let ex := (bits / 2 ^ 23) mod 256 in
  let man := bits mod 2 ^ 23 in
  if Z.eqb ex 255 then
    if Z.eqb man 0 then S754_infinity s else S754_nan
  else if Z.eqb ex 0 then
    if Z.eqb man 0 then S754_zero s
    else binary_normalize Num.prec Num.emax (cond_Zopp s man) (-149) s
  else binary_normalize Num.prec Num.emax (cond_Zopp s (man + 2 ^ 23)) (ex - 150) s.

Abbreviation Float32Array := (list f32).

(** [a.buffer] for an array that spans its whole buffer. *)
Definition buffer_of (a : Float32Array) : ArrayBuffer := flat_map f32_bytes a.

Definition RangeError_f32 : Error :=
  MkError "byte length of Float32Array should be a multiple of 4".

(** [new Float32Array(buf)]: a view of the whole buffer, which throws
    unless the byte length is a multiple of four. *)
Fixpoint new_Float32Array (buf : ArrayBuffer) : result Float32Array :=
  match buf with
  | [] => Ok []
  | b0 :: b1 :: b2 :: b3 :: rest =>
      let* a := new_Float32Array rest in Ok (F32 b0 b1 b2 b3 :: a)
  | _ => Throw RangeError_f32
  end.

(** [a[i]]: reading past the end yields [undefined], which arithmetic
    turns into [NaN]. *)
Definition f32_get (a : Float32Array) (i : nat) : Num.number :=
  match a !! i with
  | Some x => f32_to_number x
  | None => S754_nan
  end.

(** ** Container-file encoding: [createWavFile] *)

(** [for (let i = start; i < start + count; i++) body(i)] over a state that
    the body may fail to produce. *)
Fixpoint for_range {S : Type} (i count : nat) (body : nat -> S -> result S) (s : S)
  : result S :=
  match count with
  | O => Ok s
  | Datatypes.S c => let* s' := body i s in for_range (Datatypes.S i) c body s'
  end.

(** The local [writeString]: one [setUint8] per character code. *)
Fixpoint writeString (offset : nat) (s : string) (view : ArrayBuffer)
  : result ArrayBuffer :=
  match s with
  | EmptyString => Ok view
  | String c s' =>
      let* view := DataView.setUint8 offset (Z.of_nat (nat_of_ascii c)) view in
      writeString (Datatypes.S offset) s' view
  end.

(** [Math.max(-1, Math.min(1, x))]. *)
Definition clip (x : Num.number) : Num.number :=
  Num.max (Num.of_Z (-1)) (Num.min (Num.of_Z 1) x).

(** [sample * 0x7FFF], as [setInt16] receives it. *)
Definition pcm16 (x : Num.number) : Z :=
  Num.to_integral (Num.mul (clip x) (Num.of_Z 32767)).

(** Sizes and counts are integers far below [2^53], where arithmetic on
    numbers is exact: they are computed in [nat] and [Z]. *)
Definition createWavFile (audioData : Float32Array) (sampleRate : Num.number)
  : result ArrayBuffer :=
  let length := List.length audioData in
  let buffer := new_ArrayBuffer (44 + length * 2) in
  let view := buffer in
  let* view := writeString 0 "RIFF" view in
  let* view := DataView.setUint32 4 (36 + Z.of_nat length * 2) view in
  let* view := writeString 8 "WAVE" view in
  let* view := writeString 12 "fmt " view in
  let* view := DataView.setUint32 16 16 view in
  let* view := DataView.setUint16 20 1 view in
  let* view := DataView.setUint16 22 1 view in
  let* view := DataView.setUint32 24 (Num.to_integral sampleRate) view in
  let* view :=
    DataView.setUint32 28 (Num.to_integral (Num.mul sampleRate (Num.of_Z 2))) view in
  let* view := DataView.setUint16 32 2 view in
  let* view := DataView.setUint16 34 16 view in
  let* view := writeString 36 "data" view in
  let* view := DataView.setUint32 40 (Z.of_nat length * 2) view in
  let offset := 44%nat in
  for_range 0 length
    (fun i view =>
       let sample := clip (f32_get audioData i) in
       DataView.setInt16 (offset + i * 2)
         (Num.to_integral (Num.mul sample (Num.of_Z 32767))) view)
    view.

(** ** Asynchronous code and the external collaborators *)

(** The outcome of awaiting an [async] call: [None] when its promise never
    settles. *)
Definition async (A : Type) : Type := option (result A).

Definition abind {A B} (c : async A) (k : A -> async B) : async B :=
  match c with
  | Some (Ok a) => k a
  | Some (Throw e) => Some (Throw e)
  | None => None
  end.

Notation "'let!' x ':=' c 'in' k" := (abind c (fun x => k))
  (at level 10, x pattern, c at level 100, k at level 200).

(** The compiled module that [loadWasm] yields and the [DenoiseProcessor]
    built on it are opaque handles. *)
Inductive WasmModule := wasm_module (id : nat).
Inductive DenoiseProcessor := denoise_processor (id : nat).

Record Blob := MkBlob { blob_bytes : ArrayBuffer; blob_type : string }.

(** What [decodeAudioData] resolves to: its rate and its first channel. *)
Record AudioBuffer := MkAudioBuffer {
  ab_sampleRate : Num.number;
  ab_channel0 : Float32Array
}.

(** A live stream and the tracks [getTracks()] lists. *)
Record MediaStream := MkMediaStream { stream_id : nat; stream_tracks : list nat }.

Inductive ReturnType := arraybuffer | blob | float32array.

Record DenoiseOptions := MkOptions {
  sampleRate : option Num.number;
  returnType : option ReturnType;
  model : option ArrayBuffer;
  duration : option Num.number
}.

Definition no_options : DenoiseOptions := MkOptions None None None None.

(** How the collaborators answer.  Constructing and closing an
    [AudioContext] and reading a blob's bytes are taken to succeed.  The
    loader module ([./wasm/loader]) is not part of the sources: [loadWasm]
    and the [DenoiseProcessor] class are oracles, and [process] is taken to
    resolve to an [ArrayBuffer], the type [denoise] returns it at. *)
Record Env := MkEnv {
  (** how the promise of a pending [loadWasm()] settles *)
  env_load : result WasmModule;
  (** [new DenoiseProcessor(wasmModule)] *)
  env_new_processor : WasmModule -> result DenoiseProcessor;
  (** [audioContext.decodeAudioData(buffer)] *)
  env_decode : ArrayBuffer -> result AudioBuffer;
  (** [audioContext.sampleRate] of the capture context *)
  env_context_rate : Num.number;
  (** the frames the script processor delivers for a stream, in order *)
  env_frames : MediaStream -> list Float32Array;
  (** [processor.process(audioData, options)] *)
  env_process : DenoiseProcessor -> Float32Array -> DenoiseOptions -> result ArrayBuffer;
  (** [navigator.mediaDevices.getUserMedia(constraints)] *)
  env_getUserMedia : result MediaStream;
  (** the stream of the destination node of the pass-through graph *)
  env_destination : MediaStream
}.

(** ** The [denoise] namespace object and [ready] *)

Inductive PromiseState :=
| Pending
| Fulfilled
| Rejected (e : Error).

(** The properties [Object.assign] adds to the function. *)
Record Namespace := MkNamespace {
  _processor : option DenoiseProcessor;
  _ready : bool;
  _readyPromise : option nat
}.

(** The heap the namespace lives in.  A promise is its index in
    [promises].  [suspended] holds, oldest first, the calls of
    [_initialize] that wait at [await loadWasm()], each with the promise it
    returned.  [loads] and [process_calls] count the calls made to the
    loader and to the engine. *)
Record World := MkWorld {
  ns : Namespace;
  promises : list PromiseState;
  suspended : list nat;
  loads : nat;
  process_calls : nat
}.

Definition init_world : World :=
  MkWorld (MkNamespace None false None) [] [] 0 0.

Definition set_ns (n : Namespace) (w : World) : World :=
  MkWorld n (promises w) (suspended w) (loads w) (process_calls w).

(** Allocate a promise in the given state. *)
Definition new_promise (st : PromiseState) (w : World) : World * nat :=
  (MkWorld (ns w) (promises w ++ [st]) (suspended w) (loads w) (process_calls w),
   length (promises w)).

Definition settle_promise (p : nat) (st : PromiseState) (w : World) : World :=
  MkWorld (ns w) (<[p := st]> (promises w)) (suspended w) (loads w) (process_calls w).

(** [_initialize()] up to its [await]: it calls [loadWasm()] and returns its
    own pending promise. *)
Definition _initialize (w : World) : World * nat :=
  let '(w, p) := new_promise Pending w in
  (MkWorld (ns w) (promises w) (suspended w ++ [p]) (Datatypes.S (loads w))
     (process_calls w), p).

(** [ready()]. *)
Definition ready (w : World) : World * nat :=
  if _ready (ns w) then new_promise Fulfilled w
  else
    match _readyPromise (ns w) with
    | Some p => (w, p)
    | None =>
        let '(w, p) := _initialize w in
        (set_ns (MkNamespace (_processor (ns w)) (_ready (ns w)) (Some p)) w, p)
    end.

(** The rest of [_initialize] once the loader's promise has settled with
    [outcome], for the oldest call that waits. *)
Definition resume_initialize (env : Env) (outcome : result WasmModule) (w : World)
  : World :=
  match suspended w with
  | [] => w
  | p :: rest =>
      let w := MkWorld (ns w) (promises w) rest (loads w) (process_calls w) in
      match (let* wasmModule := outcome in env_new_processor env wasmModule) with
      | Throw e => settle_promise p (Rejected e) w
      | Ok processor =>
          let w := set_ns (MkNamespace (Some processor) (_ready (ns w))
                             (_readyPromise (ns w))) w in
          let w := set_ns (MkNamespace (_processor (ns w)) true
                             (_readyPromise (ns w))) w in
          settle_promise p Fulfilled w
      end
  end.

(** What can happen to the namespace: a caller calls [ready()], or the
    loader's promise settles. *)
Inductive Event :=
| CallReady
| LoadSettled (outcome : result WasmModule).

(** One observed call of [ready()]: the flag when it was called, the promise
    it returned and that promise's state on return. *)
Record ReadyCall := MkReadyCall {
  was_ready : bool;
  returned : nat;
  state_on_return : option PromiseState
}.

Definition step (env : Env) (w : World) (ev : Event) : World * list ReadyCall :=
  match ev with
  | CallReady =>
      let '(w', p) := ready w in
      (w', [MkReadyCall (_ready (ns w)) p (promises w' !! p)])
  | LoadSettled outcome => (resume_initialize env outcome w, [])
  end.

Fixpoint run (env : Env) (w : World) (evs : list Event) : World * list ReadyCall :=
  match evs with
  | [] => (w, [])
  | ev :: evs' =>
      let '(w1, c1) := step env w ev in
      let '(w2, c2) := run env w1 evs' in
      (w2, c1 ++ c2)
  end.

Definition exec (env : Env) (evs : list Event) : World := fst (run env init_world evs).

(** [await p]: the call resumes when [p] has settled; while it is pending
    the loader runs to its end, as [env_load] says. *)
Definition await (env : Env) (p : nat) (w : World) : World * async unit :=
  let w' :=
    match promises w !! p with
    | Some Pending => resume_initialize env (env_load env) w
    | _ => w
    end in
  (w',
   match promises w' !! p with
   | Some Fulfilled => Some (Ok tt)
   | Some (Rejected e) => Some (Throw e)
   | _ => None
   end).

(** ** Live capture: [captureStreamAudio] *)

Definition RangeError_set : Error := MkError "offset is out of bounds".

(** [target.set(source, offset)] on typed arrays. *)
Definition array_set (target source : Float32Array) (offset : nat)
  : result Float32Array :=
  if Nat.leb (offset + length source) (length target)
  then Ok (overwrite offset source target)
  else Throw RangeError_set.

Record CaptureState := MkCapture {
  chunks : list Float32Array;
  totalSamples : nat
}.

(** [Math.floor((duration / 1000) * sampleRate)]. *)
Definition targetSamples (duration sampleRate : Num.number) : Num.integral :=
  Num.floor (Num.mul (Num.div duration (Num.of_Z 1000)) sampleRate).

(** [totalSamples >= targetSamples]. *)
Definition reached (total : nat) (target : Num.integral) : bool :=
  match target with
  | Num.INaN => false
  | Num.IInf negative => negative
  | Num.IFin z => Z.leb z (Z.of_nat total)
  end.

(** [result.slice(0, end)]: a negative [end] counts from the end of the
    array, and the bounds are clamped to it. *)
Definition slice_to (a : Float32Array) (stop : Num.integral) : Float32Array :=
  match stop with
  | Num.INaN => []
  | Num.IInf negative => if negative then [] else a
  | Num.IFin z =>
      if Z.ltb z 0 then take (Z.to_nat (Z.max (Z.of_nat (length a) + z) 0)) a
      else take (Z.to_nat z) a
  end.

(** The "Combine chunks" loop. *)
Fixpoint combine_from (cs : list Float32Array) (offset : nat) (result0 : Float32Array)
  : result Float32Array :=
  match cs with
  | [] => Ok result0
  | chunk :: cs' =>
      let* result1 := array_set result0 chunk offset in
      combine_from cs' (offset + length chunk) result1
  end.

Definition combine (st : CaptureState) : result Float32Array :=
  combine_from (chunks st) 0 (replicate (totalSamples st) (F32 0 0 0 0)).

(** The first half of [onaudioprocess]: store a copy of the frame. *)
Definition push_frame (st : CaptureState) (inputData : Float32Array) : CaptureState :=
  MkCapture (chunks st ++ [inputData]) (totalSamples st + length inputData).

(** The handler runs once per delivered frame.  When the target is reached
    it disconnects the graph, so no later frame arrives, and resolves the
    promise; an exception in it would leave the promise pending. *)
Fixpoint capture_loop (target : Num.integral) (st : CaptureState)
    (frames : list Float32Array) : option Float32Array :=
  match frames with
  | [] => None
  | inputData :: rest =>
      let st := push_frame st inputData in
      if reached (totalSamples st) target then
        match combine st with
        | Ok result0 => Some (slice_to result0 target)
        | Throw _ => None
        end
      else capture_loop target st rest
  end.

Definition captureStreamAudio (env : Env) (stream : MediaStream)
    (duration : Num.number) : async Float32Array :=
  let sampleRate := env_context_rate env in
  let target := targetSamples duration sampleRate in
  match capture_loop target (MkCapture [] 0) (env_frames env stream) with
  | Some a => Some (Ok a)
  | None => None
  end.

(** ** The [denoise] function *)

Inductive Input :=
| VNull
| VUndefined
| VArrayBuffer (b : ArrayBuffer)
| VFloat32Array (a : Float32Array)
| VBlob (b : Blob)                       (* a [Blob] or a [File] *)
| VMediaStream (s : MediaStream)
| VOther (truthy : bool).                (* a string, a number, a plain object, ... *)

(** [!!input]. *)
Definition input_truthy (input : Input) : bool :=
  match input with
  | VNull | VUndefined => false
  | VOther t => t
  | _ => true
  end.

Inductive Output :=
| RArrayBuffer (b : ArrayBuffer)
| RBlob (b : Blob)
| RFloat32Array (a : Float32Array).

(** [a || b] on optional numbers. *)
Definition or_else (a b : option Num.number) : option Num.number :=
  match a with
  | Some v => if Num.truthy v then a else b
  | None => b
  end.

(** "Convert input to Float32Array": the sample array and the local
    [sampleRate]. *)
Definition normalize_input (env : Env) (input : Input) (options : DenoiseOptions)
  : async (Float32Array * option Num.number) :=
  match input with
  | VArrayBuffer b =>
      Some (let* audioData := new_Float32Array b in Ok (audioData, sampleRate options))
  | VFloat32Array a => Some (Ok (a, sampleRate options))
  | VBlob b =>
      let buffer := blob_bytes b in
      match env_decode env buffer with
      | Ok audioBuffer =>
          Some (Ok (ab_channel0 audioBuffer, Some (ab_sampleRate audioBuffer)))
      | Throw error =>
          Some (Throw (MkError ("Failed to decode audio file: " ++ message error)))
      end
  | VMediaStream s =>
      let! audioData :=
        captureStreamAudio env s
          (Num.or_default (duration options) (Num.of_Z 5000)) in
      Some (Ok (audioData, sampleRate options))
  | _ => Some (Throw (MkError "Invalid input type"))
  end.

(** "Return in requested format". *)
Definition format_output (denoised : ArrayBuffer) (rate : option Num.number)
    (options : DenoiseOptions) : result Output :=
  match returnType options with
  | Some blob =>
      let* samples := new_Float32Array denoised in
      let* wavBuffer := createWavFile samples (Num.or_default rate (Num.of_Z 48000)) in
      Ok (RBlob (MkBlob wavBuffer "audio/wav"))
  | Some float32array =>
      let* samples := new_Float32Array denoised in
      Ok (RFloat32Array samples)
  | _ => Ok (RArrayBuffer denoised)
  end.

Definition count_process (w : World) : World :=
  MkWorld (ns w) (promises w) (suspended w) (loads w) (Datatypes.S (process_calls w)).

(** [denoise(input, options)] after [await denoise.ready()] has resumed. *)
Definition denoise_body (env : Env) (input : Input) (options : DenoiseOptions)
    (w : World) : World * async Output :=
  match normalize_input env input options with
  | None => (w, None)
  | Some (Throw e) => (w, Some (Throw e))
  | Some (Ok (audioData, rate)) =>
      if Nat.eqb (length audioData) 0 then
        (w, Some (Throw (MkError "Audio data is empty")))
      else
        match _processor (ns w) with
        | None => (w, Some (Throw (MkError "Denoise processor not initialized")))
        | Some processor =>
            let popts := MkOptions (or_else rate (sampleRate options))
                           (returnType options) (model options) (duration options) in
            (count_process w,
             Some (let* denoised := env_process env processor audioData popts in
                   format_output denoised rate options))
        end
  end.

Definition invalid_input : Error :=
  MkError "Invalid input: input cannot be null or undefined".

(** [await denoise.ready()]. *)
Definition await_ready (env : Env) (w : World) : World * async unit :=
  let '(w, p) := ready w in await env p w.

Definition denoise (env : Env) (input : Input) (options : DenoiseOptions) (w : World)
  : World * async Output :=
  if negb (input_truthy input) then
    (w, Some (Throw invalid_input))
  else
    let '(w, r) := await_ready env w in
    match r with
    | Some (Ok _) => denoise_body env input options w
    | Some (Throw e) => (w, Some (Throw e))
    | None => (w, None)
    end.

(** ** The hook: [useAudioDenoiser] *)

(** The hook's state and refs, with what the platform records about the
    tracks: how many times [stop()] was called on each. *)
Record Hook := MkHook {
  isReady : bool;
  isProcessing : bool;
  error : option Error;
  microphoneStreamRef : option MediaStream;
  audioContextRef : bool;                  (* an [AudioContext] was created *)
  stops : gmap nat nat
}.

Definition init_hook : Hook := MkHook false false None None false ∅.

Definition stop_count (h : Hook) (track : nat) : nat :=
  default 0%nat (stops h !! track).

(** [track.stop()]. *)
Definition track_stop (track : nat) (m : gmap nat nat) : gmap nat nat :=
  <[track := Datatypes.S (default 0%nat (m !! track))]> m.

(** [stream.getTracks().forEach(track => track.stop())]. *)
Definition stop_all (s : MediaStream) (m : gmap nat nat) : gmap nat nat :=
  fold_left (fun m track => track_stop track m) (stream_tracks s) m.

(** [stopMicrophone()]. *)
Definition stopMicrophone (h : Hook) : Hook :=
  match microphoneStreamRef h with
  | Some s =>
      MkHook (isReady h) (isProcessing h) (error h) None (audioContextRef h)
        (stop_all s (stops h))
  | None => h
  end.

(** [startMicrophone()]. *)
Definition startMicrophone (env : Env) (h : Hook) : Hook * result MediaStream :=
  match env_getUserMedia env with
  | Ok stream =>
      (MkHook (isReady h) (isProcessing h) (error h) (Some stream) true (stops h),
       Ok (env_destination env))
  | Throw e =>
      (MkHook (isReady h) (isProcessing h) (Some e) (microphoneStreamRef h)
         (audioContextRef h) (stops h),
       Throw e)
  end.

(** "Ensure we return ArrayBuffer". *)
Definition to_ArrayBuffer (r : Output) : ArrayBuffer :=
  match r with
  | RArrayBuffer b => b
  | RBlob b => blob_bytes b
  | RFloat32Array a => buffer_of a
  end.

Definition set_processing (b : bool) (e : option Error) (h : Hook) : Hook :=
  MkHook (isReady h) b e (microphoneStreamRef h) (audioContextRef h) (stops h).

(** [{ ...denoiseOptions, model: options.model }]: [hook_model] is
    [options.model] of the hook and [denoiseOptions] is [undefined] when
    [None]. *)
Definition merged_options (hook_model : option ArrayBuffer)
    (denoiseOptions : option DenoiseOptions) : DenoiseOptions :=
  let d := default no_options denoiseOptions in
  MkOptions (sampleRate d) (returnType d) hook_model (duration d).

(** The hook's [denoise] ([denoiseAudio]). *)
Definition denoiseAudio (env : Env) (hook_model : option ArrayBuffer) (input : Input)
    (denoiseOptions : option DenoiseOptions) (h : Hook) (w : World)
  : Hook * World * async ArrayBuffer :=
  let h := set_processing true None h in
  let '(w, r) :=
    denoise env input (merged_options hook_model denoiseOptions) w in
  match r with
  | Some (Ok res) => (set_processing false (error h) h, w, Some (Ok (to_ArrayBuffer res)))
  | Some (Throw e) => (set_processing false (Some e) h, w, Some (Throw e))
  | None => (h, w, None)
  end.

(** The mount effect's [initialize]: [await denoise.ready()], then
    [setIsReady(true)], or [setError(err)] when it is rejected. *)
Definition mount_initialize (env : Env) (h : Hook) (w : World) : Hook * World :=
  let '(w, r) := await_ready env w in
  match r with
  | Some (Ok _) =>
      (MkHook true (isProcessing h) (error h) (microphoneStreamRef h)
         (audioContextRef h) (stops h), w)
  | Some (Throw e) =>
      (MkHook (isReady h) (isProcessing h) (Some e) (microphoneStreamRef h)
         (audioContextRef h) (stops h), w)
  | None => (h, w)
  end.

(** The mount effect's cleanup, run on unmount: it stops the tracks of the
    stored stream and leaves the ref as it is; the flag tells whether
    [audioContextRef.current.close()] was called. *)
Definition unmount_cleanup (h : Hook) : Hook * bool :=
  (match microphoneStreamRef h with
   | Some s =>
       MkHook (isReady h) (isProcessing h) (error h) (microphoneStreamRef h)
         (audioContextRef h) (stop_all s (stops h))
   | None => h
   end,
   audioContextRef h).

(** ** The component: [AudioDenoiser] *)

(** A [File] of a [FileList]. *)
Record File := MkFile { file_name : string; file_blob : Blob }.

Record Labels := MkLabels {
  label_dropzone : option string;
  label_processing : option string;
  label_microphone : option string;
  label_error : option string
}.

(** The props that the handlers and the rendered tree depend on;
    [onError] tells whether the optional callback was passed. *)
Record Props := MkProps {
  onError : bool;
  enableMicrophone : bool;
  labels : Labels
}.

(** [label || fallback]: a missing or empty label is falsy. *)
Definition label_or (label : option string) (fallback : string) : string :=
  match label with
  | Some EmptyString | None => fallback
  | Some s => s
  end.

Definition defaultLabels (l : Labels) : Labels :=
  MkLabels
    (Some (label_or (label_dropzone l) "Drop audio file here or click to select"))
    (Some (label_or (label_processing l) "Processing..."))
    (Some (label_or (label_microphone l) "Start Microphone"))
    (Some (label_or (label_error l) "Error: ")).

Definition label_text (label : option string) : string := default EmptyString label.

(** The component's own state on top of the hook's, with the number of
    auto-stop timeouts that are scheduled and have not fired. *)
Record Component := MkComponent {
  hook : Hook;
  isDragging : bool;
  isMicrophoneActive : bool;
  processingFile : option string;
  timeouts : nat
}.

Definition init_component : Component := MkComponent init_hook false false None 0.

Definition set_hook (h : Hook) (c : Component) : Component :=
  MkComponent h (isDragging c) (isMicrophoneActive c) (processingFile c) (timeouts c).

(** A call of one of the caller's callbacks. *)
Inductive Callback :=
| OnComplete (audio : ArrayBuffer)
| OnError (e : Error).

(** [onError?.(err)]. *)
Definition call_onError (props : Props) (e : Error) : list Callback :=
  if onError props then [OnError e] else [].

(** The [for] loop of [handleFiles]: one [await denoise(file)] after the
    other; [None] when one of them never settles.  The component calls the
    hook without options, so the hook's model is [undefined].  The caller's
    callbacks are taken to return. *)
Fixpoint handleFiles_loop (env : Env) (props : Props) (files : list File)
    (c : Component) (w : World) : option (Component * World * list Callback) :=
  match files with
  | [] => Some (c, w, [])
  | file :: rest =>
      let c := MkComponent (hook c) (isDragging c) (isMicrophoneActive c)
                 (Some (file_name file)) (timeouts c) in
      let '(h, w, r) :=
        denoiseAudio env None (VBlob (file_blob file)) None (hook c) w in
      let c := set_hook h c in
      match r with
      | None => None
      | Some outcome =>
          let calls :=
            match outcome with
            | Ok result0 => [OnComplete result0]
            | Throw err => call_onError props err
            end in
          match handleFiles_loop env props rest c w with
          | Some (c, w, calls') => Some (c, w, calls ++ calls')
          | None => None
          end
      end
  end.

(** [handleFiles(files)]; [None] is a missing list. *)
Definition handleFiles (env : Env) (props : Props) (files : option (list File))
    (c : Component) (w : World) : option (Component * World * list Callback) :=
  match files with
  | None | Some [] => Some (c, w, call_onError props (MkError "No files selected"))
  | Some fs =>
      match handleFiles_loop env props fs c w with
      | Some (c, w, calls) =>
          Some (MkComponent (hook c) (isDragging c) (isMicrophoneActive c) None
                  (timeouts c), w, calls)
      | None => None
      end
  end.

(** [handleMicrophoneToggle()]. *)
Definition handleMicrophoneToggle (env : Env) (props : Props) (c : Component)
  : Component * list Callback :=
  if isMicrophoneActive c then
    (MkComponent (stopMicrophone (hook c)) (isDragging c) false (processingFile c)
       (timeouts c), [])
  else
    match startMicrophone env (hook c) with
    | (h, Ok _) =>
        (MkComponent h (isDragging c) true (processingFile c)
           (Datatypes.S (timeouts c)), [])
    | (h, Throw err) => (set_hook h c, call_onError props err)
    end.

(** The callback given to [setTimeout]. *)
Definition auto_stop (c : Component) : Component :=
  MkComponent (stopMicrophone (hook c)) (isDragging c) false (processingFile c)
    (Nat.pred (timeouts c)).

(** The rendered tree, reduced to what depends on the state. *)
Record Dropzone := MkDropzone {
  dropzone_dragging : bool;
  dropzone_processing : bool;
  dropzone_message : string;
  dropzone_file : option string
}.

Record MicrophoneButton := MkMicrophoneButton {
  button_active : bool;
  button_text : string;
  button_disabled : bool
}.

Inductive View :=
| LoadingView
| ErrorView (text : string)
| MainView (dropzone : Dropzone) (button : option MicrophoneButton).

(** [processingFile && <div>{processingFile}</div>]. *)
Definition shown_file (name : option string) : option string :=
  match name with
  | Some EmptyString | None => None
  | Some s => Some s
  end.

Definition render (props : Props) (c : Component) : View :=
  let l := defaultLabels (labels props) in
  let h := hook c in
  if negb (isReady h) then LoadingView
  else
    match error h with
    | Some e => ErrorView (label_text (label_error l) ++ " " ++ message e)
    | None =>
        MainView
          (MkDropzone (isDragging c) (isProcessing h)
             (if isProcessing h then label_text (label_processing l)
              else label_text (label_dropzone l))
             (if isProcessing h then shown_file (processingFile c) else None))
          (if enableMicrophone props then
             Some (MkMicrophoneButton (isMicrophoneActive c)
                     (if isMicrophoneActive c then "Stop Microphone"
                      else label_text (label_microphone l))
                     (isProcessing h))
           else None)
    end.

(** What can happen to a mounted component.  A handler runs only if the
    element it is attached to is rendered. *)
Inductive UIEvent :=
| Drop (files : option (list File))
| DragOver
| DragLeave
| FileInput (files : option (list File))
| ClickMicrophone
| Timeout.

Definition set_dragging (b : bool) (c : Component) : Component :=
  MkComponent (hook c) b (isMicrophoneActive c) (processingFile c) (timeouts c).

Definition dispatch (env : Env) (props : Props) (ev : UIEvent) (c : Component)
    (w : World) : option (Component * World * list Callback) :=
  match ev, render props c with
  | Timeout, _ =>
      Some (match timeouts c with O => c | Datatypes.S _ => auto_stop c end, w, [])
  | Drop files, MainView _ _ => handleFiles env props files (set_dragging false c) w
  | DragOver, MainView _ _ => Some (set_dragging true c, w, [])
  | DragLeave, MainView _ _ => Some (set_dragging false c, w, [])
  | FileInput (Some files), MainView _ _ => handleFiles env props (Some files) c w
  | ClickMicrophone, MainView _ (Some button) =>
      if button_disabled button then Some (c, w, [])
      else let '(c, calls) := handleMicrophoneToggle env props c in Some (c, w, calls)
  | _, _ => Some (c, w, [])
  end.

(** A sequence of events on a mounted component, each handled to its end
    before the next. *)
Fixpoint dispatch_all (env : Env) (props : Props) (evs : list UIEvent) (c : Component)
    (w : World) : option (Component * World * list Callback) :=
  match evs with
  | [] => Some (c, w, [])
  | ev :: rest =>
      match dispatch env props ev c w with
      | Some (c1, w1, calls1) =>
          match dispatch_all env props rest c1 w1 with
          | Some (c2, w2, calls2) => Some (c2, w2, calls1 ++ calls2)
          | None => None
          end
      | None => None
      end
  end.

(** ** The raw variant of [denoise]

    The sources hold a second version of the function: it reads a blob's
    bytes as samples instead of decoding them, hands the caller's options
    to the engine as they are, and wraps the engine's bytes in an
    ["audio/raw"] blob.  [ready], [_initialize] and [captureStreamAudio]
    are the same. *)

Module Raw.

Definition normalize_input (env : Env) (input : Input) (options : DenoiseOptions)
  : async Float32Array :=
  match input with
  | VArrayBuffer b => Some (new_Float32Array b)
  | VFloat32Array a => Some (Ok a)
  | VBlob b =>
      let buffer := blob_bytes b in
      Some (new_Float32Array buffer)
  | VMediaStream s =>
      captureStreamAudio env s (Num.or_default (duration options) (Num.of_Z 5000))
  | _ => Some (Throw (MkError "Invalid input type"))
  end.

Definition format_output (denoised : ArrayBuffer) (options : DenoiseOptions)
  : result Output :=
  match returnType options with
  | Some blob => Ok (RBlob (MkBlob denoised "audio/raw"))
  | Some float32array =>
      let* samples := new_Float32Array denoised in
      Ok (RFloat32Array samples)
  | _ => Ok (RArrayBuffer denoised)
  end.

Definition denoise_body (env : Env) (input : Input) (options : DenoiseOptions)
    (w : World) : World * async Output :=
  match normalize_input env input options with
  | None => (w, None)
  | Some (Throw e) => (w, Some (Throw e))
  | Some (Ok audioData) =>
      if Nat.eqb (length audioData) 0 then
        (w, Some (Throw (MkError "Audio data is empty")))
      else
        match _processor (ns w) with
        | None => (w, Some (Throw (MkError "Denoise processor not initialized")))
        | Some processor =>
            (count_process w,
             Some (let* denoised := env_process env processor audioData options in
                   format_output denoised options))
        end
  end.

Definition denoise (env : Env) (input : Input) (options : DenoiseOptions) (w : World)
  : World * async Output :=
  if negb (input_truthy input) then
    (w, Some (Throw invalid_input))
  else
    let '(w, r) := await_ready env w in
    match r with
    | Some (Ok _) => denoise_body env input options w
    | Some (Throw e) => (w, Some (Throw e))
    | None => (w, None)
    end.

End Raw.

(** * Specification vocabulary *)

(** The 44 header bytes for [n] samples at rate [rate]. *)
Definition wav_header (n : nat) (rate : Num.number) : list Z :=
  [82; 73; 70; 70] ++ DataView.le_bytes 4 (36 + Z.of_nat n * 2)
  ++ [87; 65; 86; 69] ++ [102; 109; 116; 32]
  ++ DataView.le_bytes 4 16 ++ DataView.le_bytes 2 1 ++ DataView.le_bytes 2 1
  ++ DataView.le_bytes 4 (Num.to_integral rate)
  ++ DataView.le_bytes 4 (Num.to_integral (Num.mul rate (Num.of_Z 2)))
  ++ DataView.le_bytes 2 2 ++ DataView.le_bytes 2 16
  ++ [100; 97; 116; 97] ++ DataView.le_bytes 4 (Z.of_nat n * 2).

(** The two bytes stored for one sample. *)
Definition encode_sample (x : f32) : list Z :=
  DataView.le_bytes 2 (pcm16 (f32_to_number x)).

Definition one : Num.number := Num.of_Z 1.
Definition minus_one : Num.number := Num.of_Z (-1).

(** [clip] by cases on how the sample compares with [1] and [-1]. *)
Definition clip_cases (x : Num.number) : Num.number :=
  match SFcompare one x with
  | None => S754_nan                          (* x is NaN *)
  | Some Lt | Some Eq => one                    (* 1 <= x *)
  | Some Gt =>
      match SFcompare minus_one x with
      | Some Lt => x                            (* -1 < x < 1 *)
      | _ => minus_one                          (* x <= -1 *)
      end
  end.

(** What holds of the namespace in every world the events can produce:
    nothing has happened yet, or one initialization is in flight, done or
    failed, and its promise is the memoized one. *)
Inductive Phase (w : World) : Prop :=
| phase_idle :
    _readyPromise (ns w) = None -> _ready (ns w) = false ->
    _processor (ns w) = None -> suspended w = [] -> loads w = 0%nat ->
    Phase w
| phase_loading p :
    _readyPromise (ns w) = Some p -> _ready (ns w) = false ->
    _processor (ns w) = None -> suspended w = [p] -> loads w = 1%nat ->
    promises w !! p = Some Pending ->
    Phase w
| phase_ready p processor :
    _readyPromise (ns w) = Some p -> _ready (ns w) = true ->
    _processor (ns w) = Some processor -> suspended w = [] -> loads w = 1%nat ->
    promises w !! p = Some Fulfilled ->
    Phase w
| phase_failed p e :
    _readyPromise (ns w) = Some p -> _ready (ns w) = false ->
    _processor (ns w) = None -> suspended w = [] -> loads w = 1%nat ->
    promises w !! p = Some (Rejected e) ->
    Phase w.

(** The rate a container file should declare, in the words of the
    specification: the decoded file's rate for a file or blob, otherwise
    the caller's override. *)
Definition effective_rate (env : Env) (input : Input) (options : DenoiseOptions)
  : option Num.number :=
  match input with
  | VBlob b =>
      match env_decode env (blob_bytes b) with
      | Ok audioBuffer => Some (ab_sampleRate audioBuffer)
      | Throw _ => None
      end
  | _ => sampleRate options
  end.

(** The tag a container file opens with. *)
Definition RIFF : list Z :=
  map (fun c => Z.of_nat (nat_of_ascii c)) (list_ascii_of_string "RIFF").

(** The consequence the specification draws from a failed initialization:
    every [denoise] call is then rejected with the initialization error. *)
Definition every_denoise_fails_with_init_error : Prop :=
  forall (env : Env) (evs : list Event) (p : nat) (e : Error)
         (input : Input) (options : DenoiseOptions),
    _readyPromise (ns (exec env evs)) = Some p ->
    promises (exec env evs) !! p = Some (Rejected e) ->
    snd (denoise env input options (exec env evs)) = Some (Throw e).

(** The inputs [denoise] has no conversion for. *)
Definition unsupported (input : Input) : bool :=
  match input with
  | VNull | VUndefined | VOther _ => true
  | _ => false
  end.

(** A collaborator set for closed examples: the loader and the engine
    succeed, the engine echoes its input, nothing decodes. *)
Definition echo_env : Env :=
  MkEnv (Ok (wasm_module 0)) (fun _ => Ok (denoise_processor 0))
    (fun _ => Throw (MkError "Unable to decode audio data")) (Num.of_Z 48000)
    (fun _ => []) (fun _ audioData _ => Ok (buffer_of audioData))
    (Throw (MkError "Permission denied")) (MkMediaStream 0 []).

(** The character codes of a four-letter chunk tag. *)
Definition tag (s : string) : list Z :=
  map (fun c => Z.of_nat (nat_of_ascii c)) (list_ascii_of_string s).

(** A value that fits one byte. *)
Definition is_byte (b : Z) : Prop := 0 <= b < 256.

(** An initialization has been started and has ended, well or not. *)
Definition Settled (w : World) : Prop :=
  loads w = 1%nat /\ suspended w = []
  /\ exists p, _readyPromise (ns w) = Some p
               /\ (promises w !! p = Some Fulfilled
                   \/ exists e, promises w !! p = Some (Rejected e)).




(** The capture duration, in the words of the specification: the caller's,
    or 5000 ms when none is given; a duration of [0] or [NaN] counts as not
    given. *)
Definition capture_duration (options : DenoiseOptions) : Num.number :=
  match duration options with
  | Some d => if Num.truthy d then d else Num.of_Z 5000
  | None => Num.of_Z 5000
  end.

(** The sample-count target, in the words of the specification:
    [floor(duration / 1000 * sampleRate)]. *)
Definition claimed_target (duration sampleRate : Num.number) : Num.integral :=
  Num.floor (Num.mul (Num.div duration (Num.of_Z 1000)) sampleRate).

(** What the specification says of every capture: the array it resolves
    with has exactly the target's length. *)
Definition capture_has_target_length : Prop :=
  forall (env : Env) (s : MediaStream) (options : DenoiseOptions)
         (a : Float32Array) (rate : option Num.number),
    normalize_input env (VMediaStream s) options = Some (Ok (a, rate)) ->
    claimed_target (capture_duration options) (env_context_rate env)
    = Num.IFin (Z.of_nat (length a)).

(** * Properties *)

(** ** In-place writes *)

Lemma overwrite_length {A} (xs : list A) : forall offset l,
  length (overwrite offset xs l) = length l.
Proof.
  induction xs as [|x xs IH]; intros offset l; simpl; [reflexivity|].
  rewrite IH. apply length_insert.
Qed.

(** Writing over a segment replaces exactly that segment. *)
Lemma overwrite_app {A} (xs : list A) : forall pre old post,
  length old = length xs ->
  overwrite (length pre) xs (pre ++ old ++ post) = pre ++ xs ++ post.
Proof.
  induction xs as [|x xs IH]; intros pre old post Hlen.
  - destruct old; [reflexivity | discriminate].
  - destruct old as [|o old]; [discriminate|]. simpl in *.
    replace (<[length pre := x]> (pre ++ o :: old ++ post))
      with ((pre ++ [x]) ++ old ++ post).
    + replace (Datatypes.S (length pre)) with (length (pre ++ [x]))
        by (rewrite length_app; simpl; lia).
      rewrite IH by lia. rewrite <- app_assoc. reflexivity.
    + rewrite <- app_assoc. simpl.
      replace (length pre) with (length pre + 0)%nat at 1 by lia.
      rewrite insert_app_r. reflexivity.
Qed.

Lemma le_bytes_length n : forall v, length (DataView.le_bytes n v) = n.
Proof. induction n; intros v; simpl; [reflexivity | now rewrite IHn]. Qed.

(** A setter aimed at a segment inside the buffer succeeds and replaces it. *)
Lemma set_bytes_app size v (pre old post : ArrayBuffer) :
  length old = size ->
  DataView.set_bytes size (length pre) v (pre ++ old ++ post)
  = Ok (pre ++ DataView.le_bytes size v ++ post).
Proof.
  intros Hlen. unfold DataView.set_bytes.
  replace (Nat.leb (length pre + size) (length (pre ++ old ++ post))) with true.
  - rewrite overwrite_app; [reflexivity | now rewrite le_bytes_length].
  - symmetry. apply Nat.leb_le. rewrite !length_app. lia.
Qed.

(** ** The container file *)


Lemma wav_header_length n rate : length (wav_header n rate) = 44%nat.
Proof. reflexivity. Qed.

(** The thirteen header writes, run on a zeroed buffer, leave the header in
    front of the untouched sample area. *)
Lemma header_writes (k : ArrayBuffer -> result ArrayBuffer) (v4 v24 v28 v40 : Z)
    (tail : list Z) :
  (let* view := writeString 0 "RIFF" (replicate 44 0 ++ tail) in
   let* view := DataView.setUint32 4 v4 view in
   let* view := writeString 8 "WAVE" view in
   let* view := writeString 12 "fmt " view in
   let* view := DataView.setUint32 16 16 view in
   let* view := DataView.setUint16 20 1 view in
   let* view := DataView.setUint16 22 1 view in
   let* view := DataView.setUint32 24 v24 view in
   let* view := DataView.setUint32 28 v28 view in
   let* view := DataView.setUint16 32 2 view in
   let* view := DataView.setUint16 34 16 view in
   let* view := writeString 36 "data" view in
   let* view := DataView.setUint32 40 v40 view in
   k view)
  = k (([82; 73; 70; 70] ++ DataView.le_bytes 4 v4
        ++ [87; 65; 86; 69] ++ [102; 109; 116; 32]
        ++ DataView.le_bytes 4 16 ++ DataView.le_bytes 2 1 ++ DataView.le_bytes 2 1
        ++ DataView.le_bytes 4 v24 ++ DataView.le_bytes 4 v28
        ++ DataView.le_bytes 2 2 ++ DataView.le_bytes 2 16
        ++ [100; 97; 116; 97] ++ DataView.le_bytes 4 v40) ++ tail).
Proof. reflexivity. Qed.

(** The sample loop fills the sample area cell by cell. *)
Lemma sample_loop (audioData : Float32Array) : forall count i pre,
  length pre = (44 + i * 2)%nat ->
  length audioData = (i + count)%nat ->
  for_range i count
    (fun i view =>
       let sample := clip (f32_get audioData i) in
       DataView.setInt16 (44 + i * 2)
         (Num.to_integral (Num.mul sample (Num.of_Z 32767))) view)
    (pre ++ replicate (count * 2) 0)
  = Ok (pre ++ flat_map encode_sample (drop i audioData)).
Proof.
  induction count as [|c IH]; intros i pre Hpre Hlen.
  - simpl. rewrite drop_ge by lia. reflexivity.
  - destruct (lookup_lt_is_Some_2 audioData i ltac:(lia)) as [x Hx].
    rewrite (drop_S _ _ _ Hx).
    change (replicate (Datatypes.S c * 2) 0) with ([0; 0] ++ replicate (c * 2) 0).
    cbn [for_range]. unfold DataView.setInt16. rewrite <- Hpre.
    rewrite set_bytes_app by reflexivity.
    cbn [bind]. rewrite app_assoc.
    rewrite IH; [| rewrite length_app, le_bytes_length; lia | lia].
    rewrite <- app_assoc. unfold f32_get. rewrite Hx. reflexivity.
Qed.

(** [createWavFile] never throws and returns the header followed by the
    encoded samples. *)
Lemma createWavFile_layout (audioData : Float32Array) (rate : Num.number) :
  createWavFile audioData rate
  = Ok (wav_header (length audioData) rate ++ flat_map encode_sample audioData).
Proof.
  unfold createWavFile, new_ArrayBuffer. rewrite replicate_add.
  etransitivity; [apply header_writes|].
  apply (sample_loop audioData (length audioData) 0%nat); reflexivity.
Qed.

Lemma of_le_bytes_le_bytes n : forall v,
  DataView.of_le_bytes (DataView.le_bytes n v) = v mod 2 ^ (8 * Z.of_nat n).
Proof.
  induction n as [|n IH]; intros v.
  - simpl. now rewrite Z.mod_1_r.
  - cbn [DataView.le_bytes DataView.of_le_bytes]. rewrite IH.
    replace (8 * Z.of_nat (Datatypes.S n)) with (8 + 8 * Z.of_nat n) by lia.
    rewrite Z.pow_add_r by lia. change (2 ^ 8) with 256.
    rewrite Z.rem_mul_r by lia. reflexivity.
Qed.

Lemma encode_sample_length x : length (encode_sample x) = 2%nat.
Proof. reflexivity. Qed.

(** The cell of sample [i] inside the sample area. *)
Lemma sample_area_lookup (samples : Float32Array) : forall i x,
  samples !! i = Some x ->
  take 2 (drop (i * 2) (flat_map encode_sample samples)) = encode_sample x.
Proof.
  induction samples as [|y samples IH]; intros i x Hx; [discriminate|].
  destruct i as [|i].
  - injection Hx as ->. reflexivity.
  - simpl in Hx. cbn [flat_map].
    change (Datatypes.S i * 2)%nat with (length (encode_sample y) + i * 2)%nat.
    rewrite drop_app_add.
    now apply IH.
Qed.

Lemma sample_area_length (samples : Float32Array) :
  length (flat_map encode_sample samples) = (length samples * 2)%nat.
Proof. induction samples as [|y samples IH]; simpl; [reflexivity | lia]. Qed.

Lemma signed16_range u : 0 <= u < 2 ^ 16 -> - 2 ^ 15 <= DataView.signed16 u < 2 ^ 15.
Proof. unfold DataView.signed16. destruct (Z.leb_spec (2 ^ 15) u); lia. Qed.

(** What one sample cell of a container file reads back as. *)
Lemma wav_sample_read (samples : Float32Array) (rate : Num.number) i x :
  samples !! i = Some x ->
  DataView.getInt16 (44 + i * 2)
    (wav_header (length samples) rate ++ flat_map encode_sample samples)
  = Ok (DataView.signed16 (pcm16 (f32_to_number x) mod 2 ^ 16)).
Proof.
  intros Hx. pose proof (lookup_lt_Some _ _ _ Hx) as Hi.
  unfold DataView.getInt16, DataView.getUint16, DataView.get_bytes.
  replace (Nat.leb _ _) with true.
  - change (44 + i * 2)%nat
      with (length (wav_header (length samples) rate) + i * 2)%nat.
    rewrite drop_app_add, (sample_area_lookup _ _ _ Hx).
    unfold encode_sample. rewrite of_le_bytes_le_bytes. reflexivity.
  - symmetry. apply Nat.leb_le.
    rewrite length_app, wav_header_length, sample_area_length. lia.
Qed.

(** ** Clipping *)


Lemma clip_by_cases x : clip x = clip_cases x.
Proof.
  destruct x as [s | s | | s m e];
    [destruct s; reflexivity | destruct s; reflexivity | reflexivity |].
  unfold clip, clip_cases, Num.min, Num.max.
  change (Num.of_Z 1) with one. change (Num.of_Z (-1)) with minus_one.
  destruct s.
  - change (SFcompare one (S754_finite true m e)) with (Some Gt).
    destruct (SFcompare minus_one (S754_finite true m e)) as [[| |]|] eqn:E;
      try reflexivity.
    cbv in E. discriminate E.
  - change (SFcompare minus_one (S754_finite false m e)) with (Some Lt).
    destruct (SFcompare one (S754_finite false m e)) as [[| |]|]; reflexivity.
Qed.

(** ** The namespace invariant *)


Lemma Phase_init : Phase init_world.
Proof. now apply phase_idle. Qed.

Lemma lookup_snoc_old (l : list PromiseState) p st x :
  l !! p = Some st -> (l ++ [x]) !! p = Some st.
Proof. intros H. rewrite lookup_app_l; [exact H | eapply lookup_lt_Some, H]. Qed.

Lemma lookup_snoc_new (l : list PromiseState) x : (l ++ [x]) !! length l = Some x.
Proof. apply list_lookup_middle. reflexivity. Qed.

Lemma ready_Phase w : Phase w -> Phase (fst (ready w)).
Proof.
  intros [Hm Hr Hp Hs Hl | p Hm Hr Hp Hs Hl Hst | p pr Hm Hr Hp Hs Hl Hst
         | p e Hm Hr Hp Hs Hl Hst]; unfold ready; rewrite Hr.
  - rewrite Hm. cbn. apply (phase_loading _ (length (promises w))); cbn; try easy.
    + now rewrite Hs.
    + now rewrite Hl.
    + apply lookup_snoc_new.
  - rewrite Hm. cbn. now apply (phase_loading _ p).
  - cbn. apply (phase_ready _ p pr); cbn; try easy. now apply lookup_snoc_old.
  - rewrite Hm. cbn. now apply (phase_failed _ p e).
Qed.

Lemma resume_initialize_Phase env outcome w :
  Phase w -> Phase (resume_initialize env outcome w).
Proof.
  intros [Hm Hr Hp Hs Hl | p Hm Hr Hp Hs Hl Hst | p pr Hm Hr Hp Hs Hl Hst
         | p e Hm Hr Hp Hs Hl Hst]; unfold resume_initialize; rewrite Hs.
  - now apply phase_idle.
  - pose proof (lookup_lt_Some _ _ _ Hst) as Hlt.
    destruct (let* wasmModule := outcome in env_new_processor env wasmModule)
      as [pr | e].
    + apply (phase_ready _ p pr); cbn; try easy.
      now apply list_lookup_insert_eq.
    + apply (phase_failed _ p e); cbn; try easy.
      now apply list_lookup_insert_eq.
  - now apply (phase_ready _ p pr).
  - now apply (phase_failed _ p e).
Qed.

Lemma step_Phase env w ev : Phase w -> Phase (fst (step env w ev)).
Proof.
  intros H. destruct ev as [|outcome]; cbn.
  - pose proof (ready_Phase w H) as H'. destruct (ready w). exact H'.
  - now apply resume_initialize_Phase.
Qed.

Lemma run_Phase env : forall evs w, Phase w -> Phase (fst (run env w evs)).
Proof.
  induction evs as [|ev evs IH]; intros w H; [exact H|].
  cbn. pose proof (step_Phase env w ev H) as H1.
  destruct (step env w ev) as [w1 c1]. specialize (IH w1 H1).
  destruct (run env w1 evs) as [w2 c2]. exact IH.
Qed.

Lemma exec_Phase env evs : Phase (exec env evs).
Proof. apply run_Phase, Phase_init. Qed.

(** ** [ready]: at-most-once initialization *)

Lemma step_memo_stable env w ev p :
  _readyPromise (ns w) = Some p -> _readyPromise (ns (fst (step env w ev))) = Some p.
Proof.
  intros Hm. destruct ev as [|outcome]; cbn.
  - unfold ready. destruct (_ready (ns w)); [exact Hm|]. rewrite Hm. exact Hm.
  - unfold resume_initialize. destruct (suspended w); [exact Hm|].
    destruct (let* wasmModule := outcome in env_new_processor env wasmModule);
      exact Hm.
Qed.

Lemma step_ready_stable env w ev :
  _ready (ns w) = true -> _ready (ns (fst (step env w ev))) = true.
Proof.
  intros Hr. destruct ev as [|outcome]; cbn.
  - unfold ready. rewrite Hr. exact Hr.
  - unfold resume_initialize. destruct (suspended w); [exact Hr|].
    destruct (let* wasmModule := outcome in env_new_processor env wasmModule);
      [reflexivity | exact Hr].
Qed.

(** A call made before initialization has completed returns the promise
    that is memoized from then on. *)
Lemma ready_memoizes w :
  _ready (ns w) = false -> _readyPromise (ns (fst (ready w))) = Some (snd (ready w)).
Proof.
  intros Hr. unfold ready. rewrite Hr.
  destruct (_readyPromise (ns w)) as [p|] eqn:Hm; [exact Hm | reflexivity].
Qed.

(** A call made after it has completed changes nothing but the heap, and
    returns a promise that is already fulfilled. *)
Lemma ready_when_ready w :
  _ready (ns w) = true ->
  ns (fst (ready w)) = ns w /\ loads (fst (ready w)) = loads w
  /\ suspended (fst (ready w)) = suspended w
  /\ promises (fst (ready w)) !! snd (ready w) = Some Fulfilled.
Proof.
  intros Hr. unfold ready. rewrite Hr. cbn.
  repeat split. apply lookup_snoc_new.
Qed.

Lemma Phase_started w :
  Phase w -> _readyPromise (ns w) <> None \/ _ready (ns w) = true -> loads w = 1%nat.
Proof.
  intros [Hm Hr Hp Hs Hl | p Hm Hr Hp Hs Hl Hst | p pr Hm Hr Hp Hs Hl Hst
         | p e Hm Hr Hp Hs Hl Hst] [H | H]; congruence.
Qed.

Lemma Phase_loads w : Phase w -> (loads w <= 1)%nat.
Proof. intros [? ? ? ? Hl | ? ? ? ? ? Hl ? | ? ? ? ? ? ? Hl ? | ? ? ? ? ? ? Hl ?]; lia. Qed.

Lemma run_memo_stable env : forall evs w p,
  _readyPromise (ns w) = Some p -> _readyPromise (ns (fst (run env w evs))) = Some p.
Proof.
  induction evs as [|ev evs IH]; intros w p Hm; [exact Hm|].
  cbn. pose proof (step_memo_stable env w ev p Hm) as H1.
  destruct (step env w ev) as [w1 c1]. specialize (IH w1 p H1).
  destruct (run env w1 evs) as [w2 c2]. exact IH.
Qed.

Lemma run_ready_stable env : forall evs w,
  _ready (ns w) = true -> _ready (ns (fst (run env w evs))) = true.
Proof.
  induction evs as [|ev evs IH]; intros w Hr; [exact Hr|].
  cbn. pose proof (step_ready_stable env w ev Hr) as H1.
  destruct (step env w ev) as [w1 c1]. specialize (IH w1 H1).
  destruct (run env w1 evs) as [w2 c2]. exact IH.
Qed.

(** The calls observed along a run, against the world it ends in. *)
Lemma run_calls env : forall evs w,
  let w' := fst (run env w evs) in
  let calls := snd (run env w evs) in
  (forall c, In c calls -> was_ready c = false ->
             _readyPromise (ns w') = Some (returned c))
  /\ (forall c, In c calls -> was_ready c = true ->
                state_on_return c = Some Fulfilled /\ _ready (ns w') = true)
  /\ (_ready (ns w) = true -> forall c, In c calls -> was_ready c = true).
Proof.
  induction evs as [|ev evs IH]; intros w; cbn.
  { repeat split; intros; contradiction. }
  pose proof (step_ready_stable env w ev) as Hrs.
  destruct ev as [|outcome]; cbn in *.
  - pose proof (ready_memoizes w) as Hmemo.
    pose proof (ready_when_ready w) as Hwr.
    destruct (ready w) as [w1 p]. cbn in *.
    specialize (IH w1). cbn in IH. destruct IH as (IH1 & IH2 & IH3).
    pose proof (run_memo_stable env evs w1 p) as Hstab.
    pose proof (run_ready_stable env evs w1) as Hrstab.
    destruct (run env w1 evs) as [w2 c2]. cbn in *.
    split; [| split].
    + intros c [<- | Hin] Hc; cbn in *; [| now apply IH1].
      apply Hstab. now apply Hmemo.
    + intros c [<- | Hin] Hc; cbn in *; [| now apply IH2].
      destruct (Hwr Hc) as (Hns & _ & _ & Hst). split; [exact Hst|].
      apply Hrstab. now rewrite Hns.
    + intros Hr c [<- | Hin]; cbn; [exact Hr|].
      apply IH3; [| exact Hin]. destruct (Hwr Hr) as (-> & _). exact Hr.
  - specialize (IH (resume_initialize env outcome w)). cbn in IH.
    destruct IH as (IH1 & IH2 & IH3).
    destruct (run env (resume_initialize env outcome w) evs) as [w2 c2]. cbn in *.
    split; [exact IH1 | split; [exact IH2 |]].
    intros Hr. apply IH3. now apply Hrs.
Qed.

(** C1.  Along any sequence of [ready()] calls and loader settlements from
    the initial state, the loader is called at most once (exactly once as
    soon as [ready()] has been called); all calls made before initialization
    has completed return one and the same promise, the memoized one; and
    once [_ready] is set, every later call returns an already fulfilled
    promise and the loader is not called again. *)
Theorem ready_initializes_at_most_once (env : Env) (evs later : list Event) :
  let w := exec env evs in
  let calls := snd (run env init_world evs) in
  let w' := fst (run env w later) in
  let later_calls := snd (run env w later) in
  (loads w <= 1)%nat
  /\ (calls <> [] -> loads w = 1%nat)
  /\ (forall c1 c2, In c1 calls -> In c2 calls ->
        was_ready c1 = false -> was_ready c2 = false -> returned c1 = returned c2)
  /\ (forall c, In c calls -> was_ready c = false ->
        _readyPromise (ns w) = Some (returned c))
  /\ (_ready (ns w) = true ->
        loads w' = loads w
        /\ forall c, In c later_calls ->
             was_ready c = true /\ state_on_return c = Some Fulfilled).
Proof.
  intros w calls w' later_calls.
  pose proof (exec_Phase env evs) as HP. fold w in HP.
  destruct (run_calls env evs init_world) as (Hmemo & Hdone & _).
  fold calls in Hmemo, Hdone. change (fst (run env init_world evs)) with w in *.
  split; [now apply Phase_loads|].
  split.
  { intros Hne. apply (Phase_started w HP).
    destruct calls as [|c calls']; [contradiction|].
    destruct (was_ready c) eqn:Hc.
    - right. apply (Hdone c); [now left | exact Hc].
    - left. rewrite (Hmemo c); [discriminate | now left | exact Hc]. }
  split.
  { intros c1 c2 H1 H2 Hr1 Hr2.
    pose proof (Hmemo c1 H1 Hr1) as E1. pose proof (Hmemo c2 H2 Hr2) as E2.
    congruence. }
  split; [exact Hmemo|].
  intros Hr.
  destruct (run_calls env later w) as (_ & Hdone' & Hall).
  fold w' in Hdone'. fold later_calls in Hdone', Hall.
  split.
  - rewrite (Phase_started w HP) by now right.
    apply Phase_started; [apply run_Phase, HP|].
    right. now apply run_ready_stable.
  - intros c Hin. pose proof (Hall Hr c Hin) as Hc.
    split; [exact Hc|]. now apply (Hdone' c).
Qed.

(** Two concurrent first calls, the loader's success, then a third call:
    one load, one shared promise, and the third call is served at once. *)
Lemma ready_initializes_at_most_once_witness :
  let env := echo_env in
  let evs := [CallReady; CallReady; LoadSettled (Ok (wasm_module 0))] in
  loads (exec env evs) = 1%nat
  /\ map returned (snd (run env init_world evs)) = [0%nat; 0%nat]
  /\ map state_on_return (snd (run env (exec env evs) [CallReady])) = [Some Fulfilled].
Proof.
  intros env evs.
  destruct (ready_initializes_at_most_once env evs [CallReady]) as (_ & H & _).
  split; [apply H; discriminate|].
  split; reflexivity.
Defined.

(** ** [await denoise.ready()] inside [denoise] *)

(** From a world the events can produce, the wait always ends: either
    initialization has succeeded and the processor is in place, or the call
    is rejected.  The engine is not called. *)
Lemma await_ready_settles env w :
  Phase w ->
  Phase (fst (await_ready env w))
  /\ process_calls (fst (await_ready env w)) = process_calls w
  /\ ((snd (await_ready env w) = Some (Ok tt)
       /\ exists processor, _processor (ns (fst (await_ready env w))) = Some processor)
      \/ exists e, snd (await_ready env w) = Some (Throw e)).
Proof.
  intros HP. unfold await_ready.
  pose proof (ready_Phase w HP) as HP1.
  destruct HP as [Hm Hr Hp Hs Hl | p Hm Hr Hp Hs Hl Hst | p pr Hm Hr Hp Hs Hl Hst
                 | p e Hm Hr Hp Hs Hl Hst]; unfold ready in *; rewrite Hr in *.
  - rewrite Hm in *. cbn in HP1. cbn. unfold await.
    cbn [promises]. rewrite lookup_snoc_new.
    pose proof (resume_initialize_Phase env (env_load env) _ HP1) as HP2.
    revert HP2. unfold resume_initialize. cbn [suspended]. rewrite Hs. cbn [app].
    destruct (let* wasmModule := env_load env in env_new_processor env wasmModule)
      as [pr | e]; cbn; intros HP2;
      (split; [exact HP2|]; split; [reflexivity|]);
      rewrite list_lookup_insert_eq by (rewrite length_app; cbn; lia).
    + left. eauto.
    + right. eauto.
  - rewrite Hm in *. cbn in HP1. cbn. unfold await. rewrite Hst.
    pose proof (resume_initialize_Phase env (env_load env) _ HP1) as HP2.
    revert HP2. unfold resume_initialize. rewrite Hs.
    pose proof (lookup_lt_Some _ _ _ Hst) as Hlt.
    destruct (let* wasmModule := env_load env in env_new_processor env wasmModule)
      as [pr | e]; cbn; intros HP2;
      (split; [exact HP2|]; split; [reflexivity|]);
      rewrite list_lookup_insert_eq by exact Hlt.
    + left. eauto.
    + right. eauto.
  - cbn in HP1. cbn. unfold await. cbn [promises]. rewrite lookup_snoc_new.
    cbn. rewrite lookup_snoc_new.
    split; [exact HP1|]. split; [reflexivity|]. left. eauto.
  - rewrite Hm in *. cbn in HP1. cbn. unfold await. rewrite Hst. cbn. rewrite Hst.
    split; [exact HP1|]. split; [reflexivity|]. right. eauto.
Qed.

(** ** Rejected inputs *)

(** C3.  In every world the events can produce, [denoise] rejects [null],
    [undefined] and every value that is none of the four supported shapes:
    the falsy ones with the invalid-input error before anything else
    happens, the others with the initialization error or with
    ["Invalid input type"].  No result is produced and the engine is not
    called. *)
Theorem unsupported_input_rejected (env : Env) (evs : list Event)
    (input : Input) (options : DenoiseOptions) :
  unsupported input = true ->
  let w := exec env evs in
  (exists e, snd (denoise env input options w) = Some (Throw e))
  /\ process_calls (fst (denoise env input options w)) = process_calls w
  /\ (input_truthy input = false ->
      denoise env input options w = (w, Some (Throw invalid_input))).
Proof.
  intros Hu w. unfold denoise.
  destruct (input_truthy input) eqn:Ht; cbn [negb].
  2: { repeat split; eauto; discriminate. }
  destruct (await_ready_settles env w (exec_Phase env evs))
    as (_ & Hcalls & [(Hr & _) | (e & Hr)]);
    destruct (await_ready env w) as [w1 r]; cbn in Hcalls, Hr; subst r.
  - unfold denoise_body.
    replace (normalize_input env input options)
      with (Some (Throw (MkError "Invalid input type")) : async (Float32Array * option Num.number))
      by (destruct input; try discriminate Hu; reflexivity).
    cbn. repeat split; eauto; discriminate.
  - cbn. repeat split; eauto; discriminate.
Qed.

(** ["invalid"], as in the test suite, once the engine is loaded. *)
Lemma unsupported_input_rejected_witness :
  snd (denoise echo_env (VOther true) no_options
         (exec echo_env [CallReady; LoadSettled (Ok (wasm_module 0))]))
  = Some (Throw (MkError "Invalid input type"))
  /\ denoise echo_env VNull no_options (exec echo_env [])
     = (exec echo_env [], Some (Throw invalid_input)).
Proof.
  split.
  - destruct (unsupported_input_rejected echo_env
                [CallReady; LoadSettled (Ok (wasm_module 0))] (VOther true) no_options
                eq_refl) as ((e & He) & _).
    reflexivity.
  - now apply (unsupported_input_rejected echo_env [] VNull no_options eq_refl).
Defined.

(** C4.  When the input converts to an empty sample array, [denoise] is
    rejected and the engine has not been called; if initialization
    succeeded the error is ["Audio data is empty"]. *)
Theorem empty_audio_rejected (env : Env) (evs : list Event)
    (input : Input) (options : DenoiseOptions) (rate : option Num.number) :
  input_truthy input = true ->
  normalize_input env input options = Some (Ok ([], rate)) ->
  let w := exec env evs in
  (exists e, snd (denoise env input options w) = Some (Throw e))
  /\ process_calls (fst (denoise env input options w)) = process_calls w
  /\ (snd (await_ready env w) = Some (Ok tt) ->
      snd (denoise env input options w) = Some (Throw (MkError "Audio data is empty"))).
Proof.
  intros Ht Hn w. unfold denoise. rewrite Ht. cbn [negb].
  destruct (await_ready_settles env w (exec_Phase env evs))
    as (_ & Hcalls & [(Hr & _) | (e & Hr)]);
    destruct (await_ready env w) as [w1 r]; cbn in Hcalls, Hr; subst r.
  - unfold denoise_body. rewrite Hn. cbn. repeat split; eauto.
  - cbn. repeat split; eauto. discriminate.
Qed.

(** [new Float32Array(0)], as in the test suite. *)
Lemma empty_audio_rejected_witness :
  snd (denoise echo_env (VFloat32Array []) no_options (exec echo_env []))
  = Some (Throw (MkError "Audio data is empty")).
Proof.
  now apply (empty_audio_rejected echo_env [] (VFloat32Array []) no_options None
               eq_refl eq_refl).
Defined.

(** ** Decode failures *)

(** C7.  For a file or blob whose decoding fails with [error], [denoise],
    once initialization has succeeded, is rejected with
    ["Failed to decode audio file: " ++ error.message]. *)
Theorem decode_failure_wrapped (env : Env) (evs : list Event) (b : Blob)
    (options : DenoiseOptions) (error : Error) :
  let w := exec env evs in
  snd (await_ready env w) = Some (Ok tt) ->
  env_decode env (blob_bytes b) = Throw error ->
  snd (denoise env (VBlob b) options w)
  = Some (Throw (MkError ("Failed to decode audio file: " ++ message error)))
  /\ process_calls (fst (denoise env (VBlob b) options w)) = process_calls w.
Proof.
  intros w Hr Hd. unfold denoise. cbn [input_truthy negb].
  destruct (await_ready_settles env w (exec_Phase env evs)) as (_ & Hcalls & _).
  destruct (await_ready env w) as [w1 r]; cbn in Hcalls, Hr; subst r.
  unfold denoise_body, normalize_input. rewrite Hd. cbn. now split.
Qed.

Lemma decode_failure_wrapped_witness :
  snd (denoise echo_env (VBlob (MkBlob [1; 2; 3] "audio/wav")) no_options
         (exec echo_env []))
  = Some (Throw (MkError "Failed to decode audio file: Unable to decode audio data")).
Proof.
  now apply (decode_failure_wrapped echo_env [] (MkBlob [1; 2; 3] "audio/wav")
               no_options (MkError "Unable to decode audio data") eq_refl eq_refl).
Defined.

(** ** Failed initialization *)

(** In a world whose memoized promise is rejected no event changes
    anything, and [ready()] hands that promise out again. *)
Lemma failed_step env w ev p e :
  Phase w -> _readyPromise (ns w) = Some p -> promises w !! p = Some (Rejected e) ->
  step env w ev
  = (w, match ev with
        | CallReady => [MkReadyCall false p (Some (Rejected e))]
        | LoadSettled _ => []
        end).
Proof.
  intros HP Hm Hst.
  destruct HP as [Hm' Hr Hp Hs Hl | p' Hm' Hr Hp Hs Hl Hst' | p' pr Hm' Hr Hp Hs Hl Hst'
                 | p' e' Hm' Hr Hp Hs Hl Hst']; try congruence.
  destruct ev as [|outcome]; cbn.
  - unfold ready. rewrite Hr, Hm. now rewrite Hst.
  - unfold resume_initialize. now rewrite Hs.
Qed.

Lemma failed_run env p e : forall evs w,
  Phase w -> _readyPromise (ns w) = Some p -> promises w !! p = Some (Rejected e) ->
  fst (run env w evs) = w
  /\ forall c, In c (snd (run env w evs)) -> c = MkReadyCall false p (Some (Rejected e)).
Proof.
  induction evs as [|ev evs IH]; intros w HP Hm Hst; cbn.
  { split; [reflexivity | intros c []]. }
  rewrite (failed_step env w ev p e HP Hm Hst).
  destruct (IH w HP Hm Hst) as (Hw & Hc).
  destruct (run env w evs) as [w2 c2]. cbn in *. split; [exact Hw|].
  intros c Hin. apply in_app_or in Hin. destruct Hin as [Hin | Hin]; [| now apply Hc].
  destruct ev; [| contradiction]. destruct Hin as [<- | []]. reflexivity.
Qed.

(** C9, as amended.  Once the memoized promise is rejected with [e], the
    world never changes again: [_ready] stays [false], the loader is not
    called a second time, every later [ready()] returns the same rejected
    promise, and every later [denoise] call whose input passes the
    null-check is rejected with [e]. *)
Theorem failed_initialization_is_sticky (env : Env) (evs later : list Event)
    (p : nat) (e : Error) :
  let w := exec env evs in
  _readyPromise (ns w) = Some p ->
  promises w !! p = Some (Rejected e) ->
  let w' := fst (run env w later) in
  w' = w /\ _ready (ns w') = false /\ loads w' = 1%nat
  /\ (forall c, In c (snd (run env w later)) ->
        was_ready c = false /\ returned c = p /\ state_on_return c = Some (Rejected e))
  /\ (forall input options, input_truthy input = true ->
        denoise env input options w' = (w', Some (Throw e))).
Proof.
  intros w Hm Hst w'.
  pose proof (exec_Phase env evs) as HP. fold w in HP.
  destruct (failed_run env p e later w HP Hm Hst) as (Hw & Hc). fold w' in Hw.
  rewrite Hw. split; [reflexivity|].
  assert (Hr : _ready (ns w) = false).
  { destruct HP as [? Hr | ? ? Hr | ? ? ? Hr ? ? ? Hst' | ? ? ? Hr]; try exact Hr.
    congruence. }
  split; [exact Hr|].
  split; [apply Phase_started; [exact HP | left; congruence]|].
  split.
  - intros c Hin. rewrite (Hc c Hin). now cbn.
  - intros input options Ht. unfold denoise, await_ready. rewrite Ht. cbn [negb].
    unfold ready. rewrite Hr, Hm. unfold await. rewrite Hst. cbn. now rewrite Hst.
Qed.

(** A loader that fails, then two more [ready()] calls and a [denoise]. *)
Lemma failed_initialization_is_sticky_witness :
  let boom := MkError "wasm failed to load" in
  let w := exec echo_env [CallReady; LoadSettled (Throw boom)] in
  map returned (snd (run echo_env w [CallReady; CallReady])) = [0%nat; 0%nat]
  /\ loads (fst (run echo_env w [CallReady; CallReady])) = 1%nat
  /\ snd (denoise echo_env (VFloat32Array [F32 0 0 128 63]) no_options w)
     = Some (Throw boom).
Proof.
  intros boom w.
  destruct (failed_initialization_is_sticky echo_env
              [CallReady; LoadSettled (Throw boom)] [CallReady; CallReady] 0%nat boom
              eq_refl eq_refl) as (Hw & _ & Hl & _ & Hd).
  split; [reflexivity|]. split; [exact Hl|].
  fold w in Hw, Hd. rewrite Hw in Hd.
  now rewrite (Hd (VFloat32Array [F32 0 0 128 63]) no_options eq_refl).
Defined.

(** [denoise(null)] after a failed load is rejected by the null-check, with
    the invalid-input error and not with the loader's. *)
Lemma null_after_failed_initialization :
  ~ every_denoise_fails_with_init_error.
Proof.
  intros H.
  specialize (H echo_env [CallReady; LoadSettled (Throw (MkError "wasm failed to load"))]
                0%nat (MkError "wasm failed to load") VNull no_options eq_refl eq_refl).
  discriminate H.
Qed.

(** ** Live capture *)

(** The "Combine chunks" loop never throws and concatenates the chunks. *)
Lemma combine_from_concat : forall (cs : list Float32Array) (pre rest : Float32Array),
  length rest = length (concat cs) ->
  combine_from cs (length pre) (pre ++ rest) = Ok (pre ++ concat cs).
Proof.
  induction cs as [|chunk cs IH]; intros pre rest Hlen; cbn in *.
  - destruct rest; [reflexivity | discriminate].
  - rewrite length_app in Hlen.
    rewrite <- (take_drop (length chunk) rest).
    unfold array_set.
    replace (Nat.leb _ _) with true
      by (symmetry; apply Nat.leb_le; rewrite !length_app, length_take, length_drop; lia).
    rewrite overwrite_app by (rewrite length_take; lia).
    cbn [bind]. rewrite app_assoc, <- length_app.
    rewrite IH by (rewrite length_drop; lia).
    now rewrite <- app_assoc.
Qed.

Lemma combine_concat (st : CaptureState) :
  totalSamples st = length (concat (chunks st)) ->
  combine st = Ok (concat (chunks st)).
Proof.
  intros H. unfold combine.
  apply (combine_from_concat (chunks st) []). now rewrite length_replicate.
Qed.

(** Once the frames delivered reach the target, the capture resolves with
    the first [n] samples of everything delivered. *)
Lemma capture_loop_prefix (n : Z) : 0 <= n ->
  forall (frames : list Float32Array) (st : CaptureState),
  totalSamples st = length (concat (chunks st)) ->
  frames <> [] ->
  n <= Z.of_nat (totalSamples st + length (concat frames)) ->
  capture_loop (Num.IFin n) st frames
  = Some (take (Z.to_nat n) (concat (chunks st ++ frames))).
Proof.
  intros Hn. induction frames as [|f rest IH]; intros st Hst Hne Hlen; [congruence|].
  cbn [capture_loop reached].
  assert (Hst' : totalSamples (push_frame st f)
                 = length (concat (chunks (push_frame st f)))).
  { cbn. rewrite concat_app, length_app. cbn. rewrite app_nil_r. lia. }
  destruct (Z.leb_spec n (Z.of_nat (totalSamples (push_frame st f)))) as [Hreach | Hnot].
  - rewrite (combine_concat _ Hst'). unfold slice_to.
    destruct (Z.ltb_spec n 0); [lia|].
    cbn [chunks push_frame].
    replace (chunks st ++ f :: rest) with ((chunks st ++ [f]) ++ rest)
      by now rewrite <- app_assoc.
    rewrite (concat_app (chunks st ++ [f])).
    rewrite take_app_le; [reflexivity|].
    rewrite Hst' in Hreach. cbn in Hreach. lia.
  - cbn in Hlen, Hnot. rewrite length_app in Hlen.
    rewrite IH; [| exact Hst' | | ].
    + cbn [chunks push_frame]. now rewrite <- app_assoc.
    + intros ->. cbn in Hlen. lia.
    + cbn. lia.
Qed.

(** Until then it stays pending. *)
Lemma capture_loop_pending (n : Z) :
  forall (frames : list Float32Array) (st : CaptureState),
  Z.of_nat (totalSamples st + length (concat frames)) < n ->
  capture_loop (Num.IFin n) st frames = None.
Proof.
  induction frames as [|f rest IH]; intros st Hlen; [reflexivity|].
  cbn [capture_loop reached]. cbn in Hlen. rewrite length_app in Hlen.
  destruct (Z.leb_spec n (Z.of_nat (totalSamples (push_frame st f)))) as [Hreach | Hnot].
  - cbn in Hreach. lia.
  - apply IH. cbn. lia.
Qed.

(** C5, as amended.  For a live stream, take the duration the caller gives,
    or 5000 ms when it gives none (or [0], or [NaN]), and let the target
    [floor(duration / 1000 * sampleRate)] be a finite [n >= 0].  As long as
    the frames delivered hold fewer than [n] samples the capture is pending,
    and once they hold [n] it has resolved with exactly the first [n]
    samples of their concatenation. *)
Theorem stream_capture_is_target_prefix (env : Env) (s : MediaStream)
    (options : DenoiseOptions) (n : Z) :
  let frames := env_frames env s in
  claimed_target (capture_duration options) (env_context_rate env) = Num.IFin n ->
  0 <= n ->
  (Z.of_nat (length (concat frames)) < n ->
   normalize_input env (VMediaStream s) options = None)
  /\ (frames <> [] -> n <= Z.of_nat (length (concat frames)) ->
      normalize_input env (VMediaStream s) options
      = Some (Ok (take (Z.to_nat n) (concat frames), sampleRate options))
      /\ Z.of_nat (length (take (Z.to_nat n) (concat frames))) = n).
Proof.
  intros frames Ht Hn.
  assert (Hcode : targetSamples (Num.or_default (duration options) (Num.of_Z 5000))
                    (env_context_rate env) = Num.IFin n) by exact Ht.
  unfold normalize_input, captureStreamAudio. rewrite Hcode. fold frames.
  split.
  - intros Hlt. now rewrite capture_loop_pending.
  - intros Hne Hle.
    rewrite (capture_loop_prefix n Hn frames (MkCapture [] 0) eq_refl Hne Hle).
    cbn. split; [reflexivity|]. rewrite length_take. lia.
Qed.

(** Two milliseconds at 48 kHz out of a first frame of 4096 samples, and the
    default five seconds, for which one frame is not enough. *)
Lemma stream_capture_is_target_prefix_witness :
  let env := MkEnv (Ok (wasm_module 0)) (fun _ => Ok (denoise_processor 0))
               (fun _ => Throw (MkError "Unable to decode audio data")) (Num.of_Z 48000)
               (fun _ => [replicate 4096 (F32 0 0 128 63)])
               (fun _ audioData _ => Ok (buffer_of audioData))
               (Throw (MkError "Permission denied")) (MkMediaStream 0 []) in
  normalize_input env (VMediaStream (MkMediaStream 1 [7%nat]))
    (MkOptions None None None (Some (Num.of_Z 2)))
  = Some (Ok (replicate 96 (F32 0 0 128 63), None))
  /\ normalize_input env (VMediaStream (MkMediaStream 1 [7%nat])) no_options = None.
Proof.
  intros env. split.
  - destruct (stream_capture_is_target_prefix env (MkMediaStream 1 [7%nat])
                (MkOptions None None None (Some (Num.of_Z 2))) 96
                eq_refl ltac:(lia)) as (_ & H).
    destruct H as (H & _); [discriminate | cbn; lia |].
    rewrite H. reflexivity.
  - apply (stream_capture_is_target_prefix env (MkMediaStream 1 [7%nat]) no_options
             240000 eq_refl ltac:(lia)).
    cbn. lia.
Defined.

(** A duration of -10 ms at 48 kHz: the target is -480, and the capture
    resolves with the 3616 samples that [slice(0, -480)] leaves of the first
    frame. *)
Lemma negative_duration_misses_target_length : ~ capture_has_target_length.
Proof.
  intros H.
  pose (env := MkEnv (Ok (wasm_module 0)) (fun _ => Ok (denoise_processor 0))
                 (fun _ => Throw (MkError "Unable to decode audio data"))
                 (Num.of_Z 48000) (fun _ => [replicate 4096 (F32 0 0 128 63)])
                 (fun _ audioData _ => Ok (buffer_of audioData))
                 (Throw (MkError "Permission denied")) (MkMediaStream 0 [])).
  pose (options := MkOptions None None None (Some (Num.of_Z (-10)))).
  assert (E : normalize_input env (VMediaStream (MkMediaStream 1 [7%nat])) options
              = Some (Ok (replicate 3616 (F32 0 0 128 63), None)))
    by (vm_compute; reflexivity).
  specialize (H env (MkMediaStream 1 [7%nat]) options _ _ E).
  vm_compute in H. discriminate H.
Qed.

(** A negative duration gives a negative target: the first frame reaches
    it and [slice] then counts from the end of the frame. *)
Example negative_duration :
  targetSamples (Num.of_Z (-10)) (Num.of_Z 48000) = Num.IFin (-480)
  /\ option_map (@length f32)
       (capture_loop (Num.IFin (-480)) (MkCapture [] 0) [replicate 4096 (F32 0 0 0 0)])
     = Some 3616%nat.
Proof. split; vm_compute; reflexivity. Qed.

(** The default duration at 48 kHz asks for 240000 samples. *)
Example default_target :
  targetSamples (Num.or_default None (Num.of_Z 5000)) (Num.of_Z 48000) = Num.IFin 240000.
Proof. reflexivity. Qed.

(** ** Container-file output *)

(** What a fulfilled [denoise] call went through. *)
Lemma denoise_fulfilled env input options w w' out :
  denoise env input options w = (w', Some (Ok out)) ->
  exists audioData rate processor popts denoised,
    normalize_input env input options = Some (Ok (audioData, rate))
    /\ env_process env processor audioData popts = Ok denoised
    /\ format_output denoised rate options = Ok out.
Proof.
  unfold denoise. destruct (negb (input_truthy input)); [discriminate|].
  destruct (await_ready env w) as [w1 [[[]|e]|]]; try discriminate.
  unfold denoise_body.
  destruct (normalize_input env input options) as [[[audioData rate]|e]|];
    try discriminate.
  destruct (Nat.eqb (length audioData) 0); [discriminate|].
  destruct (_processor (ns w1)) as [processor|]; [|discriminate].
  intros H. injection H as _ H.
  destruct (env_process env processor audioData _) as [denoised|e] eqn:Hp;
    [|discriminate].
  cbn in H. eauto 10.
Qed.

(** The local [sampleRate] is the effective rate of the specification. *)
Lemma normalize_input_rate env input options audioData rate :
  normalize_input env input options = Some (Ok (audioData, rate)) ->
  rate = effective_rate env input options.
Proof.
  unfold normalize_input, effective_rate.
  destruct input as [| | b | a | b | s | t]; try discriminate.
  - destruct (new_Float32Array b); cbn; congruence.
  - congruence.
  - destruct (env_decode env (blob_bytes b)); congruence.
  - destruct (captureStreamAudio env s _) as [[a|e]|]; cbn; congruence.
Qed.

Lemma format_output_blob denoised rate options b :
  format_output denoised rate options = Ok (RBlob b) ->
  returnType options = Some blob
  /\ exists samples,
       new_Float32Array denoised = Ok samples
       /\ b = MkBlob (wav_header (length samples) (Num.or_default rate (Num.of_Z 48000))
                      ++ flat_map encode_sample samples) "audio/wav".
Proof.
  unfold format_output. destruct (returnType options) as [[| |]|]; try discriminate.
  - intros H. split; [reflexivity|].
    destruct (new_Float32Array denoised) as [samples|e]; [|discriminate].
    cbn [bind] in H. rewrite createWavFile_layout in H. cbn [bind] in H.
    exists samples. split; [reflexivity | congruence].
  - destruct (new_Float32Array denoised); discriminate.
Qed.

(** C2.  A fulfilled [denoise] call with [returnType: "blob"] yields an
    ["audio/wav"] blob made of 44 header bytes that open with ["RIFF"],
    followed by two bytes per sample of the engine's output and nothing
    else; the cell of sample [i] reads back, as a little-endian signed
    16-bit integer, as the integral part of [clip(x) * 0x7FFF] wrapped to
    16 bits, where [clip(x)] is [1] for [x >= 1], [-1] for [x <= -1], [x]
    in between and [NaN] for [NaN]. *)
Theorem blob_output_is_wav (env : Env) (input : Input) (options : DenoiseOptions)
    (w w' : World) (out : Output) :
  returnType options = Some blob ->
  denoise env input options w = (w', Some (Ok out)) ->
  exists (processor : DenoiseProcessor) (audioData : Float32Array)
         (popts : DenoiseOptions) (denoised : ArrayBuffer)
         (samples : Float32Array) (rate : Num.number) (header bytes : list Z),
    env_process env processor audioData popts = Ok denoised
    /\ new_Float32Array denoised = Ok samples
    /\ out = RBlob (MkBlob bytes "audio/wav")
    /\ bytes = header ++ flat_map encode_sample samples
    /\ length header = 44%nat
    /\ take 4 bytes = RIFF
    /\ length bytes = (44 + 2 * length samples)%nat
    /\ forall i x, samples !! i = Some x ->
         let v := Num.to_integral
                    (Num.mul (clip_cases (f32_to_number x)) (Num.of_Z 32767)) in
         DataView.getInt16 (44 + i * 2) bytes = Ok (DataView.signed16 (v mod 2 ^ 16))
         /\ - 2 ^ 15 <= DataView.signed16 (v mod 2 ^ 16) < 2 ^ 15.
Proof.
  intros Hrt Hd.
  destruct (denoise_fulfilled _ _ _ _ _ _ Hd)
    as (audioData & rate & processor & popts & denoised & _ & Hp & Hf).
  unfold format_output in Hf. rewrite Hrt in Hf.
  destruct (new_Float32Array denoised) as [samples|e] eqn:Hs; [|discriminate].
  cbn [bind] in Hf. rewrite createWavFile_layout in Hf. cbn [bind] in Hf.
  assert (Hout : out = RBlob (MkBlob
                   (wav_header (length samples) (Num.or_default rate (Num.of_Z 48000))
                    ++ flat_map encode_sample samples) "audio/wav")) by congruence.
  clear Hf Hd. subst out.
  exists processor, audioData, popts, denoised, samples,
    (Num.or_default rate (Num.of_Z 48000)).
  eexists _, _. split; [exact Hp|]. split; [exact Hs|]. split; [reflexivity|]. split; [reflexivity|].
  split; [apply wav_header_length|]. split; [reflexivity|].
  split; [rewrite length_app, wav_header_length, sample_area_length; lia|].
  intros i x Hx v. split.
  - rewrite (wav_sample_read _ _ _ _ Hx). unfold pcm16. now rewrite clip_by_cases.
  - apply signed16_range. now apply Z.mod_pos_bound.
Qed.

(** The engine returning [1.0; -0.5; NaN]: 44 + 6 bytes that end with
    [32767], [-16383] and [0]. *)
Lemma blob_output_is_wav_witness :
  exists bytes,
    snd (denoise echo_env
           (VFloat32Array [F32 0 0 128 63; F32 0 0 0 191; F32 0 0 192 127])
           (MkOptions None (Some blob) None None) (exec echo_env []))
    = Some (Ok (RBlob (MkBlob bytes "audio/wav")))
    /\ length bytes = 50%nat
    /\ take 4 bytes = [82; 73; 70; 70]
    /\ drop 44 bytes = [255; 127; 1; 192; 0; 0].
Proof.
  destruct (blob_output_is_wav echo_env
              (VFloat32Array [F32 0 0 128 63; F32 0 0 0 191; F32 0 0 192 127])
              (MkOptions None (Some blob) None None) (exec echo_env []) _ _
              eq_refl eq_refl)
    as (processor & audioData & popts & denoised & samples & rate & header & bytes
        & _ & _ & Hout & _).
  injection Hout as <-. eexists. repeat split.
Defined.

(** A number that denotes an integer truncates to it. *)
Lemma to_integral_denotes (x : Num.number) (z : Z) :
  Num.denotes x z -> Num.to_integral x = z.
Proof.
  destruct x as [s | s | | s m e]; cbn; try easy.
  unfold Num.trunc_finite.
  destruct (Z.leb_spec 0 e) as [He | He]; intros H.
  - rewrite Z.shiftl_mul_pow2 by lia. subst z. reflexivity.
  - rewrite <- (Z.opp_involutive e), Z.shiftl_opp_r, Z.shiftr_div_pow2 by lia.
    assert (Hpow : 0 < 2 ^ (- e)) by (apply Z.pow_pos_nonneg; lia).
    destruct s; cbn [cond_Zopp] in *.
    + replace (Z.pos m) with (- z * 2 ^ (- e)) by lia.
      rewrite Z.div_mul by lia. lia.
    + rewrite H. now rewrite Z.div_mul by lia.
Qed.

Lemma denotes_truthy (x : Num.number) (z : Z) :
  Num.denotes x z -> z <> 0 -> Num.truthy x = true.
Proof. destruct x; cbn; try easy. Qed.

(** The rate field of a header. *)
Lemma wav_header_rate n rate body :
  DataView.getUint32 24 (wav_header n rate ++ body)
  = Ok (Num.to_integral rate mod 2 ^ 32).
Proof.
  change (DataView.getUint32 24 (wav_header n rate ++ body))
    with (Ok (DataView.of_le_bytes (DataView.le_bytes 4 (Num.to_integral rate)))).
  now rewrite of_le_bytes_le_bytes.
Qed.

(** C6.  Whenever [denoise] yields a container file, the rate its header
    declares (the 32-bit field at offset 24) is the effective input rate:
    the decoded file's rate for a file or blob, otherwise the caller's
    [sampleRate], for every rate that is a positive integer below [2^32]. *)
Theorem declared_rate_is_effective_rate (env : Env) (input : Input)
    (options : DenoiseOptions) (w w' : World) (b : Blob) (r : Num.number) (z : Z) :
  denoise env input options w = (w', Some (Ok (RBlob b))) ->
  effective_rate env input options = Some r ->
  Num.denotes r z ->
  0 < z < 2 ^ 32 ->
  DataView.getUint32 24 (blob_bytes b) = Ok z.
Proof.
  intros Hd He Hr Hz.
  destruct (denoise_fulfilled _ _ _ _ _ _ Hd)
    as (audioData & rate & processor & popts & denoised & Hn & _ & Hf).
  apply normalize_input_rate in Hn. rewrite He in Hn. subst rate.
  destruct (format_output_blob _ _ _ _ Hf) as (_ & samples & _ & ->).
  cbn [blob_bytes Num.or_default].
  rewrite (denotes_truthy r z Hr) by lia.
  rewrite wav_header_rate, (to_integral_denotes r z Hr).
  now rewrite Z.mod_small by lia.
Qed.

(** A sample array at the caller's 44100 Hz. *)
Lemma declared_rate_is_effective_rate_witness :
  exists b,
    snd (denoise echo_env (VFloat32Array [F32 0 0 128 63])
           (MkOptions (Some (Num.of_Z 44100)) (Some blob) None None) (exec echo_env []))
    = Some (Ok (RBlob b))
    /\ DataView.getUint32 24 (blob_bytes b) = Ok 44100.
Proof.
  eexists. split; [reflexivity|].
  apply (declared_rate_is_effective_rate echo_env (VFloat32Array [F32 0 0 128 63])
           (MkOptions (Some (Num.of_Z 44100)) (Some blob) None None)
           (exec echo_env []) _ _ (Num.of_Z 44100) 44100 eq_refl eq_refl).
  - reflexivity.
  - lia.
Defined.

(** Without a decoded file and without an override the header says 48000. *)
Lemma declared_rate_default (env : Env) (input : Input) (options : DenoiseOptions)
    (w w' : World) (b : Blob) :
  denoise env input options w = (w', Some (Ok (RBlob b))) ->
  effective_rate env input options = None ->
  DataView.getUint32 24 (blob_bytes b) = Ok 48000.
Proof.
  intros Hd He.
  destruct (denoise_fulfilled _ _ _ _ _ _ Hd)
    as (audioData & rate & processor & popts & denoised & Hn & _ & Hf).
  apply normalize_input_rate in Hn. rewrite He in Hn. subst rate.
  destruct (format_output_blob _ _ _ _ Hf) as (_ & samples & _ & ->).
  cbn [blob_bytes Num.or_default]. now rewrite wav_header_rate.
Qed.

(** ** The hook *)

(** A view built on a buffer has that buffer as its [.buffer]. *)
Lemma buffer_of_new_Float32Array : forall (n : nat) (buf : ArrayBuffer) (a : Float32Array),
  (length buf <= n)%nat -> new_Float32Array buf = Ok a -> buffer_of a = buf.
Proof.
  induction n as [|n IH]; intros buf a Hn.
  - destruct buf; [| cbn in Hn; lia]. cbn. now intros [= <-].
  - destruct buf as [|b0 [|b1 [|b2 [|b3 rest]]]]; cbn; try discriminate.
    + now intros [= <-].
    + destruct (new_Float32Array rest) as [a'|e] eqn:Hr; cbn; [|discriminate].
      intros [= <-].
      change (buffer_of (F32 b0 b1 b2 b3 :: a'))
        with (b0 :: b1 :: b2 :: b3 :: buffer_of a').
      rewrite (IH rest a'); [reflexivity | cbn in Hn; lia | exact Hr].
Qed.

(** C10.  Whatever representation was requested, when the underlying
    [denoise] call is fulfilled the hook's [denoise] is fulfilled with a raw
    buffer: the result itself if it is one, the bytes of the container file,
    or the buffer the sample array is a view of, which is the buffer the
    engine returned.  It then leaves [isProcessing] false and [error]
    cleared. *)
Theorem hook_denoise_returns_raw_buffer (env : Env) (hook_model : option ArrayBuffer)
    (input : Input) (denoiseOptions : option DenoiseOptions) (h : Hook) (w w' : World)
    (res : Output) :
  denoise env input (merged_options hook_model denoiseOptions) w = (w', Some (Ok res)) ->
  exists h' buf,
    denoiseAudio env hook_model input denoiseOptions h w = (h', w', Some (Ok buf))
    /\ isProcessing h' = false /\ error h' = None
    /\ match res with
       | RArrayBuffer b => buf = b
       | RBlob b => buf = blob_bytes b
       | RFloat32Array a =>
           buf = buffer_of a
           /\ exists processor audioData popts,
                env_process env processor audioData popts = Ok buf
       end.
Proof.
  intros Hd. unfold denoiseAudio.
  rewrite Hd. eexists _, _. split; [reflexivity|]. cbn.
  split; [reflexivity|]. split; [reflexivity|].
  destruct res as [b | b | a]; try reflexivity.
  split; [reflexivity|].
  destruct (denoise_fulfilled _ _ _ _ _ _ Hd)
    as (audioData & rate & processor & popts & denoised & _ & Hp & Hf).
  exists processor, audioData, popts. rewrite Hp. f_equal.
  unfold format_output in Hf.
  destruct (returnType (merged_options hook_model denoiseOptions)) as [[| |]|];
    try discriminate.
  - destruct (new_Float32Array denoised) as [samples|e]; [|discriminate].
    cbn [bind] in Hf. rewrite createWavFile_layout in Hf. discriminate.
  - destruct (new_Float32Array denoised) as [samples|e] eqn:Hs; [|discriminate].
    cbn in Hf. injection Hf as ->.
    symmetry. now apply (buffer_of_new_Float32Array (length denoised)).
Qed.

(** The three representations of the engine's echo of [1.0]. *)
Lemma hook_denoise_returns_raw_buffer_witness :
  let run_hook rt :=
    snd (denoiseAudio echo_env None (VFloat32Array [F32 0 0 128 63])
           (Some (MkOptions None rt None None)) init_hook (exec echo_env [])) in
  run_hook (Some float32array) = Some (Ok [0; 0; 128; 63])
  /\ run_hook (Some arraybuffer) = Some (Ok [0; 0; 128; 63])
  /\ option_map (fun r => match r with Ok buf => length buf | Throw _ => 0%nat end)
       (run_hook (Some blob)) = Some 46%nat.
Proof.
  intros run_hook.
  destruct (hook_denoise_returns_raw_buffer echo_env None
              (VFloat32Array [F32 0 0 128 63])
              (Some (MkOptions None (Some float32array) None None)) init_hook
              (exec echo_env []) _ _ eq_refl) as (h' & buf & H & _).
  assert (Hbuf : buf = [0; 0; 128; 63]) by (vm_compute in H; congruence).
  unfold run_hook. rewrite H, Hbuf. repeat split.
Defined.

(** [forEach(track => track.stop())] stops a track as many times as the
    list names it. *)
Lemma stop_all_count (s : MediaStream) : forall (m : gmap nat nat) (t : nat),
  default 0%nat (stop_all s m !! t)
  = (default 0%nat (m !! t) + count_occ Nat.eq_dec (stream_tracks s) t)%nat.
Proof.
  unfold stop_all. induction (stream_tracks s) as [|t' ts IH]; intros m t; cbn.
  - lia.
  - rewrite IH. unfold track_stop.
    destruct (Nat.eq_dec t' t) as [-> | Hne].
    + rewrite lookup_insert_eq. cbn. lia.
    + now rewrite lookup_insert_ne.
Qed.

(** C8.  After [startMicrophone()] has obtained a stream whose tracks are
    distinct, a call of [stopMicrophone()] calls [stop()] exactly once on
    each of its tracks and on no other, and clears the stored handle; a
    further call, with no active stream, does nothing. *)
Theorem stop_halts_every_track_once (env : Env) (h : Hook) (stream : MediaStream) :
  env_getUserMedia env = Ok stream ->
  List.NoDup (stream_tracks stream) ->
  let h1 := fst (startMicrophone env h) in
  let h2 := stopMicrophone h1 in
  microphoneStreamRef h1 = Some stream
  /\ microphoneStreamRef h2 = None
  /\ (forall t, In t (stream_tracks stream) ->
        stop_count h2 t = Datatypes.S (stop_count h1 t))
  /\ (forall t, ~ In t (stream_tracks stream) -> stop_count h2 t = stop_count h1 t)
  /\ stopMicrophone h2 = h2.
Proof.
  intros Hg Hnd h1 h2. subst h1 h2. unfold startMicrophone. rewrite Hg.
  cbn. repeat split; unfold stop_count; cbn; intros t Ht; rewrite stop_all_count.
  - apply (proj1 (NoDup_count_occ' Nat.eq_dec _) Hnd) in Ht. lia.
  - apply (count_occ_not_In Nat.eq_dec) in Ht. lia.
Qed.

(** A stream with two tracks, one of which had been stopped before. *)
Lemma stop_halts_every_track_once_witness :
  let env := MkEnv (Ok (wasm_module 0)) (fun _ => Ok (denoise_processor 0))
               (fun _ => Throw (MkError "Unable to decode audio data")) (Num.of_Z 48000)
               (fun _ => []) (fun _ audioData _ => Ok (buffer_of audioData))
               (Ok (MkMediaStream 1 [3%nat; 5%nat])) (MkMediaStream 2 []) in
  let h := MkHook true false None None false {[ 5%nat := 2%nat ]} in
  let h2 := stopMicrophone (fst (startMicrophone env h)) in
  stop_count h2 3 = 1%nat /\ stop_count h2 5 = 3%nat /\ stop_count h2 4 = 0%nat
  /\ microphoneStreamRef h2 = None.
Proof.
  intros env h h2.
  assert (Hnd : List.NoDup [3%nat; 5%nat]).
  { constructor; [intros [H | []]; discriminate H|].
    constructor; [intros [] | constructor]. }
  destruct (stop_halts_every_track_once env h (MkMediaStream 1 [3%nat; 5%nat])
              eq_refl Hnd) as (_ & Href & Hin & Hout & _).
  fold h2 in Href, Hin, Hout.
  split; [now rewrite (Hin 3%nat) by (cbn; tauto)|].
  split; [now rewrite (Hin 5%nat) by (cbn; tauto)|].
  split; [| exact Href].
  rewrite (Hout 4%nat); [reflexivity|].
  cbn. intros [H | [H | []]]; discriminate H.
Defined.

(** * Further properties of the code *)

(** ** [createWavFile] on its own *)

Lemma le_bytes_are_bytes n : forall v, Forall is_byte (DataView.le_bytes n v).
Proof.
  induction n as [|n IH]; intros v; cbn; constructor; [|apply IH].
  unfold is_byte. apply Z.mod_pos_bound. lia.
Qed.

Lemma wav_header_bytes n rate : Forall is_byte (wav_header n rate).
Proof.
  unfold wav_header.
  repeat (apply Forall_app; split); try apply le_bytes_are_bytes;
    repeat constructor; unfold is_byte; lia.
Qed.

(** X1.  [createWavFile] returns for every sample array and every rate, also
    [NaN], an infinity or a negative one: it never writes outside its
    buffer.  The file has [44 + 2 * length] bytes and each of them is a
    byte. *)
Theorem createWavFile_returns (audioData : Float32Array) (rate : Num.number) :
  exists bytes,
    createWavFile audioData rate = Ok bytes
    /\ length bytes = (44 + 2 * length audioData)%nat
    /\ Forall is_byte bytes.
Proof.
  eexists. split; [apply createWavFile_layout|]. split.
  - rewrite length_app, wav_header_length, sample_area_length. lia.
  - apply Forall_app. split; [apply wav_header_bytes|].
    induction audioData as [|x a IH]; cbn [flat_map]; [constructor|].
    apply Forall_app. split; [apply le_bytes_are_bytes | exact IH].
Qed.

Lemma wav_header_field4 n rate body :
  DataView.getUint32 4 (wav_header n rate ++ body)
  = Ok ((36 + Z.of_nat n * 2) mod 2 ^ 32).
Proof.
  change (DataView.getUint32 4 (wav_header n rate ++ body))
    with (Ok (DataView.of_le_bytes (DataView.le_bytes 4 (36 + Z.of_nat n * 2)))).
  now rewrite of_le_bytes_le_bytes.
Qed.

Lemma wav_header_field40 n rate body :
  DataView.getUint32 40 (wav_header n rate ++ body)
  = Ok ((Z.of_nat n * 2) mod 2 ^ 32).
Proof.
  change (DataView.getUint32 40 (wav_header n rate ++ body))
    with (Ok (DataView.of_le_bytes (DataView.le_bytes 4 (Z.of_nat n * 2)))).
  now rewrite of_le_bytes_le_bytes.
Qed.

(** X2.  As long as the file is shorter than [2^32] bytes, the two size fields
    of the header agree with the file: the RIFF chunk size at offset 4 is
    the file length minus 8, and the data chunk size at offset 40 is the
    number of bytes after the header. *)
Theorem wav_sizes_match_file (audioData : Float32Array) (rate : Num.number)
    (bytes : list Z) :
  createWavFile audioData rate = Ok bytes ->
  Z.of_nat (length bytes) < 2 ^ 32 ->
  DataView.getUint32 4 bytes = Ok (Z.of_nat (length bytes) - 8)
  /\ DataView.getUint32 40 bytes = Ok (Z.of_nat (length (drop 44 bytes))).
Proof.
  rewrite createWavFile_layout. intros Hb Hlen.
  assert (E : bytes = wav_header (length audioData) rate
                      ++ flat_map encode_sample audioData) by congruence.
  clear Hb. subst bytes. rewrite length_drop.
  rewrite length_app, wav_header_length, sample_area_length in *.
  rewrite wav_header_field4, wav_header_field40.
  rewrite !Z.mod_small by lia. split; f_equal; lia.
Qed.

Lemma wav_sizes_match_file_witness :
  exists bytes,
    createWavFile [F32 0 0 128 63; F32 0 0 0 191] (Num.of_Z 48000) = Ok bytes
    /\ DataView.getUint32 4 bytes = Ok 40
    /\ DataView.getUint32 40 bytes = Ok 4.
Proof.
  eexists. split; [reflexivity|].
  apply (wav_sizes_match_file [F32 0 0 128 63; F32 0 0 0 191] (Num.of_Z 48000) _
           eq_refl).
  cbn. lia.
Defined.

(** X3.  Whatever the samples and the rate, the header describes uncompressed
    mono 16-bit PCM: the tags ["WAVE"], ["fmt "] and ["data"], a 16-byte
    format chunk, format 1, one channel, block align 2, 16 bits per
    sample. *)
Theorem wav_format_fields (audioData : Float32Array) (rate : Num.number) :
  exists bytes,
    createWavFile audioData rate = Ok bytes
    /\ take 4 (drop 8 bytes) = tag "WAVE"
    /\ take 4 (drop 12 bytes) = tag "fmt "
    /\ DataView.getUint32 16 bytes = Ok 16
    /\ DataView.getUint16 20 bytes = Ok 1
    /\ DataView.getUint16 22 bytes = Ok 1
    /\ DataView.getUint16 32 bytes = Ok 2
    /\ DataView.getUint16 34 bytes = Ok 16
    /\ take 4 (drop 36 bytes) = tag "data".
Proof.
  eexists. split; [apply createWavFile_layout|]. repeat split.
Qed.

(** X4.  Saturation: a sample at or above [1] (also [+Infinity]) is stored as
    [32767], one at or below [-1] (also [-Infinity]) as [-32767], not
    [-32768], and [NaN] as [0]. *)
Theorem pcm16_saturates (x : Num.number) :
  (SFcompare one x = Some Lt \/ SFcompare one x = Some Eq -> pcm16 x = 32767)
  /\ (SFcompare minus_one x = Some Gt \/ SFcompare minus_one x = Some Eq ->
      pcm16 x = - 32767)
  /\ (x = S754_nan -> pcm16 x = 0).
Proof.
  unfold pcm16. rewrite clip_by_cases. unfold clip_cases. split; [|split].
  - intros [-> | ->]; reflexivity.
  - intros H.
    assert (Hone : SFcompare one x = Some Gt).
    { destruct x as [[|] | [|] | | [|] m e]; try reflexivity;
        destruct H as [H | H]; discriminate H. }
    rewrite Hone. destruct H as [-> | ->]; reflexivity.
  - intros ->. reflexivity.
Qed.

(** [1.5] and [-Infinity]. *)
Lemma pcm16_saturates_witness :
  pcm16 (f32_to_number (F32 0 0 192 63)) = 32767
  /\ pcm16 (f32_to_number (F32 0 0 128 255)) = - 32767.
Proof.
  split.
  - apply (pcm16_saturates (f32_to_number (F32 0 0 192 63))). now left.
  - apply (pcm16_saturates (f32_to_number (F32 0 0 128 255))). now left.
Defined.

(** ** [captureStreamAudio] at its edges *)

(** X5.  Once the capture has resolved, nothing delivered later changes its
    value: the handler has disconnected the graph. *)
Theorem capture_ignores_later_frames (target : Num.integral) :
  forall (frames more : list Float32Array) (st : CaptureState) (a : Float32Array),
  capture_loop target st frames = Some a ->
  capture_loop target st (frames ++ more) = Some a.
Proof.
  induction frames as [|f rest IH]; intros more st a H; [discriminate|].
  cbn [capture_loop app] in *.
  destruct (reached (totalSamples (push_frame st f)) target).
  - destruct (combine (push_frame st f)); [exact H | discriminate].
  - now apply IH.
Qed.

Lemma capture_ignores_later_frames_witness :
  capture_loop (Num.IFin 3) (MkCapture [] 0)
    ([replicate 2 (F32 0 0 128 63); replicate 2 (F32 0 0 0 191)]
     ++ [replicate 2 (F32 1 2 3 4)])
  = Some [F32 0 0 128 63; F32 0 0 128 63; F32 0 0 0 191].
Proof.
  now apply (capture_ignores_later_frames (Num.IFin 3)
               [replicate 2 (F32 0 0 128 63); replicate 2 (F32 0 0 0 191)]).
Defined.

Lemma capture_loop_unreachable (target : Num.integral) :
  target = Num.INaN \/ target = Num.IInf false ->
  forall (frames : list Float32Array) (st : CaptureState),
  capture_loop target st frames = None.
Proof.
  intros Ht. induction frames as [|f rest IH]; intros st; [reflexivity|].
  cbn [capture_loop]. destruct Ht as [-> | ->]; cbn [reached]; apply IH.
Qed.

(** X6.  With [duration: Infinity] and a context rate that is a positive finite
    number, the target is never reached: the call stays pending whatever
    frames arrive, and nothing stops the capture. *)
Theorem infinite_duration_never_resolves (env : Env) (s : MediaStream)
    (options : DenoiseOptions) (m : positive) (e : Z) :
  duration options = Some (S754_infinity false) ->
  env_context_rate env = S754_finite false m e ->
  normalize_input env (VMediaStream s) options = None.
Proof.
  intros Hd Hr. unfold normalize_input, captureStreamAudio. rewrite Hd, Hr.
  cbn [Num.or_default Num.truthy].
  now rewrite capture_loop_unreachable by (right; reflexivity).
Qed.

Lemma infinite_duration_never_resolves_witness :
  let env := MkEnv (Ok (wasm_module 0)) (fun _ => Ok (denoise_processor 0))
               (fun _ => Throw (MkError "Unable to decode audio data")) (Num.of_Z 48000)
               (fun _ => replicate 100 (replicate 4096 (F32 0 0 128 63)))
               (fun _ audioData _ => Ok (buffer_of audioData))
               (Throw (MkError "Permission denied")) (MkMediaStream 0 []) in
  normalize_input env (VMediaStream (MkMediaStream 1 [7%nat]))
    (MkOptions None None None (Some (S754_infinity false))) = None.
Proof.
  intros env.
  now apply (infinite_duration_never_resolves env (MkMediaStream 1 [7%nat])
               (MkOptions None None None (Some (S754_infinity false)))
               6597069766656000 (-37)).
Defined.

(** X7.  A negative target is reached by the first frame, and [slice] then
    drops the last [|n|] samples of that frame: the capture resolves with
    the first [length + n] of them, none if the frame is that short. *)
Theorem negative_target_cuts_first_frame (n : Z) (inputData : Float32Array)
    (rest : list Float32Array) :
  n < 0 ->
  capture_loop (Num.IFin n) (MkCapture [] 0) (inputData :: rest)
  = Some (take (Z.to_nat (Z.of_nat (length inputData) + n)) inputData).
Proof.
  intros Hn. cbn [capture_loop reached].
  destruct (Z.leb_spec n (Z.of_nat (totalSamples (push_frame (MkCapture [] 0) inputData))));
    [| lia].
  rewrite combine_concat by (cbn; now rewrite app_nil_r).
  cbn [chunks push_frame app concat]. rewrite app_nil_r. unfold slice_to.
  destruct (Z.ltb_spec n 0); [| lia].
  f_equal. f_equal. lia.
Qed.

Lemma negative_target_cuts_first_frame_witness :
  capture_loop (Num.IFin (-1)) (MkCapture [] 0)
    [[F32 0 0 128 63; F32 0 0 0 191; F32 1 2 3 4]]
  = Some [F32 0 0 128 63; F32 0 0 0 191].
Proof.
  now apply (negative_target_cuts_first_frame (-1)
               [F32 0 0 128 63; F32 0 0 0 191; F32 1 2 3 4] []).
Defined.

(** ** [denoise] as a whole *)

(** [new Float32Array(buf)] succeeds exactly on buffers whose length is a
    multiple of four. *)
Lemma new_Float32Array_aligned : forall (n : nat) (buf : ArrayBuffer),
  (length buf <= n)%nat ->
  match new_Float32Array buf with
  | Ok a => length buf = (4 * length a)%nat
  | Throw _ => (length buf mod 4 <> 0)%nat
  end.
Proof.
  induction n as [|n IH]; intros buf Hn.
  - destruct buf; [reflexivity | cbn in Hn; lia].
  - destruct buf as [|b0 [|b1 [|b2 [|b3 rest]]]]; try (cbn; discriminate).
    + reflexivity.
    + specialize (IH rest ltac:(cbn in Hn; lia)).
      cbn [new_Float32Array].
      destruct (new_Float32Array rest) as [a|e]; cbn [bind length].
      * lia.
      * change (Datatypes.S (Datatypes.S (Datatypes.S (Datatypes.S (length rest)))))
          with (4 + length rest)%nat.
        rewrite <- (Nat.Div0.add_mod_idemp_l 4). cbn. exact IH.
Qed.

Lemma count_process_Phase w : Phase w -> Phase (count_process w).
Proof.
  intros [Hm Hr Hp Hs Hl | p Hm Hr Hp Hs Hl Hst | p pr Hm Hr Hp Hs Hl Hst
         | p e Hm Hr Hp Hs Hl Hst].
  - now apply phase_idle.
  - now apply (phase_loading _ p).
  - now apply (phase_ready _ p pr).
  - now apply (phase_failed _ p e).
Qed.

(** A [denoise] call leaves the namespace in a state the events can
    produce. *)
Lemma denoise_Phase env input options w :
  Phase w -> Phase (fst (denoise env input options w)).
Proof.
  intros HP. unfold denoise. destruct (negb (input_truthy input)); [exact HP|].
  destruct (await_ready_settles env w HP) as (HP1 & _).
  destruct (await_ready env w) as [w1 [[[]|e]|]]; cbn in HP1; try exact HP1.
  unfold denoise_body.
  destruct (normalize_input env input options) as [[[audioData rate]|e]|];
    try exact HP1.
  destruct (Nat.eqb (length audioData) 0); [exact HP1|].
  destruct (_processor (ns w1)); [| exact HP1].
  now apply count_process_Phase.
Qed.

(** What a fulfilled call handed to the engine. *)
Lemma denoise_fulfilled_engine env input options w w' out :
  denoise env input options w = (w', Some (Ok out)) ->
  exists audioData rate processor denoised,
    input_truthy input = true
    /\ snd (await_ready env w) = Some (Ok tt)
    /\ w' = count_process (fst (await_ready env w))
    /\ normalize_input env input options = Some (Ok (audioData, rate))
    /\ audioData <> []
    /\ _processor (ns w') = Some processor
    /\ env_process env processor audioData
         (MkOptions (or_else rate (sampleRate options)) (returnType options)
            (model options) (duration options)) = Ok denoised
    /\ format_output denoised rate options = Ok out.
Proof.
  unfold denoise. destruct (input_truthy input); [|discriminate]. cbn [negb].
  destruct (await_ready env w) as [w1 [[[]|e]|]]; try discriminate.
  unfold denoise_body.
  destruct (normalize_input env input options) as [[[audioData rate]|e]|];
    try discriminate.
  destruct (Nat.eqb_spec (length audioData) 0) as [|Hne]; [discriminate|].
  destruct (_processor (ns w1)) as [processor|] eqn:Hpr; [|discriminate].
  intros H.
  assert (Hw : w' = count_process w1) by congruence.
  destruct (env_process env processor audioData _) as [denoised|e] eqn:Hp;
    [| cbn in H; congruence].
  cbn [bind] in H.
  exists audioData, rate, processor, denoised. subst w'. cbn.
  repeat split; try assumption; try congruence.
  intros ->. now apply Hne.
Qed.

(** X9.  One call reaches the engine at most once, and exactly once when it is
    fulfilled; a fulfilled call leaves the namespace initialized. *)
Theorem engine_called_at_most_once (env : Env) (evs : list Event)
    (input : Input) (options : DenoiseOptions) :
  let w := exec env evs in
  let w' := fst (denoise env input options w) in
  (process_calls w' = process_calls w
   \/ process_calls w' = Datatypes.S (process_calls w))
  /\ (forall out, snd (denoise env input options w) = Some (Ok out) ->
        process_calls w' = Datatypes.S (process_calls w)
        /\ _ready (ns w') = true /\ loads w' = 1%nat).
Proof.
  intros w w'.
  pose proof (denoise_Phase env input options w (exec_Phase env evs)) as HP'.
  fold w' in HP'.
  destruct (await_ready_settles env w (exec_Phase env evs)) as (_ & Hcalls & _).
  split.
  - subst w'. unfold denoise. destruct (negb (input_truthy input)); [now left|].
    destruct (await_ready env w) as [w1 [[[]|e]|]]; cbn in Hcalls;
      try (left; exact Hcalls).
    unfold denoise_body.
    destruct (normalize_input env input options) as [[[audioData rate]|e]|];
      try (left; exact Hcalls).
    destruct (Nat.eqb (length audioData) 0); [left; exact Hcalls|].
    destruct (_processor (ns w1)); [| left; exact Hcalls].
    right. cbn. now rewrite Hcalls.
  - intros out Hout.
    assert (Hd : denoise env input options w = (w', Some (Ok out))).
    { subst w'. destruct (denoise env input options w) as [w2 r]. cbn in *.
      now rewrite Hout. }
    destruct (denoise_fulfilled_engine _ _ _ _ _ _ Hd)
      as (a & rate & pr & d & _ & _ & Hw & _ & _ & Hpr & _).
    split; [rewrite Hw; cbn; now rewrite Hcalls|].
    destruct HP' as [? ? Hp | ? ? ? Hp | p pr' Hm Hr Hp Hs Hl Hst | ? ? ? ? Hp];
      try congruence.
    now split.
Qed.

Lemma await_ready_Settled env w : Phase w -> Settled (fst (await_ready env w)).
Proof.
  intros HP. unfold await_ready, Settled.
  destruct HP as [Hm Hr Hp Hs Hl | p Hm Hr Hp Hs Hl Hst | p pr Hm Hr Hp Hs Hl Hst
                 | p e Hm Hr Hp Hs Hl Hst]; unfold ready; rewrite Hr.
  - rewrite Hm. cbn. unfold await. cbn [promises]. rewrite lookup_snoc_new.
    unfold resume_initialize. cbn [suspended]. rewrite Hs. cbn [app].
    destruct (let* wasmModule := env_load env in env_new_processor env wasmModule)
      as [pr | e]; cbn; rewrite Hl;
      (split; [reflexivity|]; split; [reflexivity|]; eexists; split; [reflexivity|]);
      rewrite list_lookup_insert_eq by (rewrite length_app; cbn; lia); eauto.
  - rewrite Hm. cbn. unfold await. rewrite Hst.
    unfold resume_initialize. rewrite Hs.
    pose proof (lookup_lt_Some _ _ _ Hst) as Hlt.
    destruct (let* wasmModule := env_load env in env_new_processor env wasmModule)
      as [pr | e]; cbn; rewrite Hl, Hm;
      (split; [reflexivity|]; split; [reflexivity|]; eexists; split; [reflexivity|]);
      rewrite list_lookup_insert_eq by exact Hlt; eauto.
  - cbn. unfold await. cbn [promises]. rewrite lookup_snoc_new. cbn.
    rewrite Hl, Hs, Hm. split; [reflexivity|]. split; [reflexivity|].
    exists p. split; [reflexivity|]. left. now apply lookup_snoc_old.
  - rewrite Hm. cbn. unfold await. rewrite Hst. cbn.
    rewrite Hl, Hs, Hm. split; [reflexivity|]. split; [reflexivity|].
    exists p. split; [reflexivity|]. right. eauto.
Qed.

Lemma await_ready_when_ready env w :
  _ready (ns w) = true ->
  await_ready env w = (fst (new_promise Fulfilled w), Some (Ok tt)).
Proof.
  intros Hr. unfold await_ready, ready. rewrite Hr.
  unfold new_promise, await. simpl promises.
  rewrite lookup_snoc_new. simpl promises. now rewrite lookup_snoc_new.
Qed.

(** X11.  Once the engine is loaded, a [denoise] call leaves the namespace as it
    is and never calls the loader: it only allocates the promise that
    [ready()] returns. *)
Theorem denoise_when_ready (env : Env) (w : World) (input : Input)
    (options : DenoiseOptions) :
  _ready (ns w) = true ->
  let w' := fst (denoise env input options w) in
  ns w' = ns w /\ loads w' = loads w /\ suspended w' = suspended w.
Proof.
  intros Hr w'. subst w'. unfold denoise.
  destruct (negb (input_truthy input)); [now cbn|].
  rewrite (await_ready_when_ready env w Hr).
  unfold denoise_body.
  destruct (normalize_input env input options) as [[[audioData rate]|e]|];
    try (now cbn).
  destruct (Nat.eqb (length audioData) 0); [now cbn|].
  destruct (_processor (ns (new_promise Fulfilled w).1)); now cbn.
Qed.

Lemma denoise_when_ready_witness :
  let w := exec echo_env [CallReady; LoadSettled (Ok (wasm_module 0))] in
  loads (fst (denoise echo_env (VFloat32Array [F32 0 0 128 63]) no_options w)) = 1%nat.
Proof.
  intros w.
  destruct (denoise_when_ready echo_env w (VFloat32Array [F32 0 0 128 63]) no_options
              eq_refl) as (_ & H & _).
  rewrite H. reflexivity.
Defined.

(** X12.  With no [returnType], or with ["arraybuffer"], a fulfilled call
    returns the very buffer the engine produced for the converted samples;
    the engine got the caller's options with [sampleRate] replaced by the
    local rate when that one is truthy. *)
Theorem default_output_is_engine_buffer (env : Env) (input : Input)
    (options : DenoiseOptions) (w w' : World) (out : Output) :
  returnType options = None \/ returnType options = Some arraybuffer ->
  denoise env input options w = (w', Some (Ok out)) ->
  exists audioData rate processor denoised,
    normalize_input env input options = Some (Ok (audioData, rate))
    /\ _processor (ns w') = Some processor
    /\ env_process env processor audioData
         (MkOptions (or_else rate (sampleRate options)) (returnType options)
            (model options) (duration options)) = Ok denoised
    /\ out = RArrayBuffer denoised.
Proof.
  intros Hrt Hd.
  destruct (denoise_fulfilled_engine _ _ _ _ _ _ Hd)
    as (a & rate & pr & d & _ & _ & _ & Hn & _ & Hpr & Hp & Hf).
  exists a, rate, pr, d. repeat split; try assumption.
  unfold format_output in Hf. destruct Hrt as [Hrt | Hrt]; rewrite Hrt in Hf; congruence.
Qed.

Lemma default_output_is_engine_buffer_witness :
  snd (denoise echo_env (VFloat32Array [F32 0 0 128 63]) no_options (exec echo_env []))
  = Some (Ok (RArrayBuffer [0; 0; 128; 63])).
Proof.
  destruct (default_output_is_engine_buffer echo_env (VFloat32Array [F32 0 0 128 63])
              no_options (exec echo_env []) _ _ (or_introl eq_refl) eq_refl)
    as (a & rate & pr & d & _ & _ & _ & H).
  reflexivity.
Defined.

(** X13.  A decoded file is processed as its first channel and at its own rate:
    when the decoded rate is truthy the engine is given that rate, and a
    [sampleRate] passed by the caller is ignored. *)
Theorem file_rate_overrides_option (env : Env) (b : Blob) (options : DenoiseOptions)
    (w w' : World) (out : Output) (audioBuffer : AudioBuffer) :
  env_decode env (blob_bytes b) = Ok audioBuffer ->
  Num.truthy (ab_sampleRate audioBuffer) = true ->
  denoise env (VBlob b) options w = (w', Some (Ok out)) ->
  exists processor denoised,
    env_process env processor (ab_channel0 audioBuffer)
      (MkOptions (Some (ab_sampleRate audioBuffer)) (returnType options)
         (model options) (duration options)) = Ok denoised
    /\ format_output denoised (Some (ab_sampleRate audioBuffer)) options = Ok out.
Proof.
  intros Hdec Ht Hd.
  destruct (denoise_fulfilled_engine _ _ _ _ _ _ Hd)
    as (a & rate & pr & d & _ & _ & _ & Hn & _ & _ & Hp & Hf).
  unfold normalize_input in Hn. rewrite Hdec in Hn. injection Hn as <- <-.
  unfold or_else in Hp. rewrite Ht in Hp. eauto.
Qed.

(** A file that decodes to one sample at 22050 Hz, with a caller asking
    for 8000: the container file declares 22050. *)
Lemma file_rate_overrides_option_witness :
  let env := MkEnv (Ok (wasm_module 0)) (fun _ => Ok (denoise_processor 0))
               (fun _ => Ok (MkAudioBuffer (Num.of_Z 22050) [F32 0 0 128 63]))
               (Num.of_Z 48000) (fun _ => [])
               (fun _ audioData _ => Ok (buffer_of audioData))
               (Throw (MkError "Permission denied")) (MkMediaStream 0 []) in
  exists b,
    snd (denoise env (VBlob (MkBlob [1; 2; 3] "audio/wav"))
           (MkOptions (Some (Num.of_Z 8000)) (Some blob) None None) (exec env []))
    = Some (Ok (RBlob b))
    /\ DataView.getUint32 24 (blob_bytes b) = Ok 22050.
Proof.
  intros env.
  destruct (file_rate_overrides_option env (MkBlob [1; 2; 3] "audio/wav")
              (MkOptions (Some (Num.of_Z 8000)) (Some blob) None None)
              (exec env []) _ _ (MkAudioBuffer (Num.of_Z 22050) [F32 0 0 128 63])
              eq_refl eq_refl eq_refl) as (pr & d & _ & _).
  eexists. split; reflexivity.
Defined.

(** X14.  A raw buffer whose byte length is not a multiple of four cannot be
    viewed as samples: once the engine is loaded the call is rejected, and
    the engine is not called. *)
Theorem misaligned_buffer_rejected (env : Env) (evs : list Event)
    (b : ArrayBuffer) (options : DenoiseOptions) :
  (length b mod 4 <> 0)%nat ->
  let w := exec env evs in
  (exists e, snd (denoise env (VArrayBuffer b) options w) = Some (Throw e))
  /\ process_calls (fst (denoise env (VArrayBuffer b) options w)) = process_calls w.
Proof.
  intros Hb w. unfold denoise. cbn [input_truthy negb].
  destruct (await_ready_settles env w (exec_Phase env evs))
    as (_ & Hcalls & [(Hr & _) | (e & Hr)]);
    destruct (await_ready env w) as [w1 r]; cbn in Hcalls, Hr; subst r;
    [| cbn; eauto].
  unfold denoise_body, normalize_input.
  pose proof (new_Float32Array_aligned (length b) b (le_n _)) as Ha.
  destruct (new_Float32Array b) as [a|e]; cbn.
  - exfalso. apply Hb. rewrite Ha. now rewrite Nat.mul_comm, Nat.Div0.mod_mul.
  - eauto.
Qed.

Lemma misaligned_buffer_rejected_witness :
  exists e,
    snd (denoise echo_env (VArrayBuffer [0; 0; 128; 63; 7]) no_options
           (exec echo_env [])) = Some (Throw e).
Proof.
  apply (misaligned_buffer_rejected echo_env [] [0; 0; 128; 63; 7] no_options).
  cbn. discriminate.
Defined.

(** X15.  The same holds on the way out: when the engine's buffer has a byte
    length that is not a multiple of four, a call asking for a container
    file or a sample array is rejected although the engine has run, while
    the default representation is fulfilled with that buffer. *)
Theorem misaligned_engine_output (denoised : ArrayBuffer) (rate : option Num.number)
    (options : DenoiseOptions) :
  (length denoised mod 4 <> 0)%nat ->
  match returnType options with
  | Some blob | Some float32array =>
      exists e, format_output denoised rate options = Throw e
  | _ => format_output denoised rate options = Ok (RArrayBuffer denoised)
  end.
Proof.
  intros Hb. unfold format_output.
  pose proof (new_Float32Array_aligned (length denoised) denoised (le_n _)) as Ha.
  destruct (returnType options) as [[| |]|]; try reflexivity;
    destruct (new_Float32Array denoised) as [a|e]; cbn [bind]; eauto;
    exfalso; apply Hb; rewrite Ha; now rewrite Nat.mul_comm, Nat.Div0.mod_mul.
Qed.

Lemma misaligned_engine_output_witness :
  exists e,
    format_output [1; 2; 3] None (MkOptions None (Some float32array) None None)
    = Throw e.
Proof.
  apply (misaligned_engine_output [1; 2; 3] None
           (MkOptions None (Some float32array) None None)).
  cbn. discriminate.
Defined.

(** X16.  Without a decoded rate and without a truthy [sampleRate] ([undefined],
    [0] or [NaN]) a container file declares 48000 Hz; for a live stream
    this is so whatever the rate of the capturing context. *)
Theorem declared_rate_falls_back_to_48000 (env : Env) (input : Input)
    (options : DenoiseOptions) (w w' : World) (b : Blob) :
  denoise env input options w = (w', Some (Ok (RBlob b))) ->
  match effective_rate env input options with
  | Some r => Num.truthy r = false
  | None => True
  end ->
  DataView.getUint32 24 (blob_bytes b) = Ok 48000.
Proof.
  intros Hd He.
  destruct (denoise_fulfilled _ _ _ _ _ _ Hd)
    as (audioData & rate & processor & popts & denoised & Hn & _ & Hf).
  apply normalize_input_rate in Hn. subst rate.
  destruct (format_output_blob _ _ _ _ Hf) as (_ & samples & _ & ->).
  cbn [blob_bytes]. rewrite wav_header_rate.
  destruct (effective_rate env input options) as [r|]; cbn [Num.or_default];
    [rewrite He|]; reflexivity.
Qed.

(** A stream captured at 44100 Hz, with [sampleRate: 0]. *)
Lemma declared_rate_falls_back_to_48000_witness :
  let env := MkEnv (Ok (wasm_module 0)) (fun _ => Ok (denoise_processor 0))
               (fun _ => Throw (MkError "Unable to decode audio data")) (Num.of_Z 44100)
               (fun _ => [replicate 64 (F32 0 0 128 63)])
               (fun _ audioData _ => Ok (buffer_of audioData))
               (Throw (MkError "Permission denied")) (MkMediaStream 0 []) in
  exists b,
    snd (denoise env (VMediaStream (MkMediaStream 1 [7%nat]))
           (MkOptions (Some (Num.of_Z 0)) (Some blob) None (Some (Num.of_Z 1)))
           (exec env []))
    = Some (Ok (RBlob b))
    /\ DataView.getUint32 24 (blob_bytes b) = Ok 48000.
Proof.
  intros env. eexists. split; [reflexivity|].
  apply (declared_rate_falls_back_to_48000 env (VMediaStream (MkMediaStream 1 [7%nat]))
           (MkOptions (Some (Num.of_Z 0)) (Some blob) None (Some (Num.of_Z 1)))
           (exec env []) _ _ eq_refl).
  reflexivity.
Defined.

(** X17.  An error of the engine reaches the caller as it is, unlike a decode
    error, which is wrapped. *)
Theorem engine_error_propagates (env : Env) (evs : list Event) (input : Input)
    (options : DenoiseOptions) (audioData : Float32Array) (rate : option Num.number)
    (e : Error) :
  let w := exec env evs in
  input_truthy input = true ->
  snd (await_ready env w) = Some (Ok tt) ->
  normalize_input env input options = Some (Ok (audioData, rate)) ->
  audioData <> [] ->
  (forall processor popts, env_process env processor audioData popts = Throw e) ->
  snd (denoise env input options w) = Some (Throw e).
Proof.
  intros w Ht Hr Hn Hne Hp. unfold denoise. rewrite Ht. cbn [negb].
  destruct (await_ready_settles env w (exec_Phase env evs))
    as (_ & _ & [(_ & pr & Hpr) | (e' & Hr')]); [| congruence].
  destruct (await_ready env w) as [w1 r]; cbn in Hr, Hpr; subst r.
  unfold denoise_body. rewrite Hn.
  destruct audioData as [|x a]; [congruence|]. cbn [length Nat.eqb].
  rewrite Hpr. cbn. now rewrite Hp.
Qed.

Lemma engine_error_propagates_witness :
  let env := MkEnv (Ok (wasm_module 0)) (fun _ => Ok (denoise_processor 0))
               (fun _ => Throw (MkError "Unable to decode audio data")) (Num.of_Z 48000)
               (fun _ => []) (fun _ _ _ => Throw (MkError "frame size mismatch"))
               (Throw (MkError "Permission denied")) (MkMediaStream 0 []) in
  snd (denoise env (VFloat32Array [F32 0 0 128 63]) no_options (exec env []))
  = Some (Throw (MkError "frame size mismatch")).
Proof.
  intros env.
  apply (engine_error_propagates env [] (VFloat32Array [F32 0 0 128 63]) no_options
           [F32 0 0 128 63] None (MkError "frame size mismatch") eq_refl eq_refl eq_refl).
  - discriminate.
  - reflexivity.
Defined.

(** ** The namespace *)

(** X18.  In every state the events can produce, [_ready] is set exactly when a
    processor is in place, and then the memoized promise is fulfilled; a
    promise is memoized exactly when the loader has been called; and the
    memoized promise exists. *)
Theorem namespace_invariant (env : Env) (evs : list Event) :
  let w := exec env evs in
  (_ready (ns w) = true <-> _processor (ns w) <> None)
  /\ (_ready (ns w) = true ->
      exists p, _readyPromise (ns w) = Some p /\ promises w !! p = Some Fulfilled)
  /\ (_readyPromise (ns w) = None <-> loads w = 0%nat)
  /\ (forall p, _readyPromise (ns w) = Some p -> (p < length (promises w))%nat).
Proof.
  intros w. destruct (exec_Phase env evs)
    as [Hm Hr Hp Hs Hl | p Hm Hr Hp Hs Hl Hst | p pr Hm Hr Hp Hs Hl Hst
       | p e Hm Hr Hp Hs Hl Hst]; fold w in Hm, Hr, Hp, Hs, Hl;
    try fold w in Hst; rewrite Hm, Hr, Hp, Hl.
  - repeat split; try congruence; try discriminate.
  - repeat split; try congruence; try discriminate.
    intros q [= <-]. eapply lookup_lt_Some, Hst.
  - repeat split; try congruence; try discriminate.
    + intros _. eauto.
    + intros q [= <-]. eapply lookup_lt_Some, Hst.
  - repeat split; try congruence; try discriminate.
    intros q [= <-]. eapply lookup_lt_Some, Hst.
Qed.

Lemma run_app env : forall evs1 evs2 w,
  fst (run env w (evs1 ++ evs2)) = fst (run env (fst (run env w evs1)) evs2).
Proof.
  induction evs1 as [|ev evs1 IH]; intros evs2 w; [reflexivity|].
  cbn. destruct (step env w ev) as [w1 c1]. specialize (IH evs2 w1).
  destruct (run env w1 (evs1 ++ evs2)) as [w2 c2].
  destruct (run env w1 evs1) as [w3 c3]. cbn in *. exact IH.
Qed.

Lemma first_calls env : forall k,
  exec env (replicate (Datatypes.S k) CallReady)
  = MkWorld (MkNamespace None false (Some 0%nat)) [Pending] [0%nat] 1 0.
Proof.
  unfold exec. induction k as [|k IH]; [reflexivity|].
  change (replicate (Datatypes.S (Datatypes.S k)) CallReady)
    with ([CallReady] ++ replicate (Datatypes.S k) CallReady).
  rewrite run_app.
  change (fst (run env init_world [CallReady]))
    with (MkWorld (MkNamespace None false (Some 0%nat)) [Pending] [0%nat] 1 0).
  clear IH. induction k as [|k IH]; [reflexivity|].
  change (replicate (Datatypes.S (Datatypes.S k)) CallReady)
    with ([CallReady] ++ replicate (Datatypes.S k) CallReady).
  rewrite run_app. exact IH.
Qed.

(** X19.  How the first initialization ends, after any number of concurrent first
    calls: it succeeds when the loader's promise is fulfilled and the
    processor's constructor returns, and then sets [_processor] and
    [_ready] and fulfils the shared promise; when the loader's promise is
    rejected or the constructor throws, it rejects the shared promise with
    that error and sets nothing. *)
Theorem initialization_outcome (env : Env) (k : nat) (outcome : result WasmModule) :
  let w := exec env (replicate (Datatypes.S k) CallReady ++ [LoadSettled outcome]) in
  _readyPromise (ns w) = Some 0%nat /\ loads w = 1%nat
  /\ match (let* wasmModule := outcome in env_new_processor env wasmModule) with
     | Ok processor =>
         _ready (ns w) = true /\ _processor (ns w) = Some processor
         /\ promises w = [Fulfilled]
     | Throw e =>
         _ready (ns w) = false /\ _processor (ns w) = None
         /\ promises w = [Rejected e]
     end.
Proof.
  intros w. subst w. unfold exec. rewrite run_app.
  change (fst (run env init_world (replicate (Datatypes.S k) CallReady)))
    with (exec env (replicate (Datatypes.S k) CallReady)).
  rewrite first_calls. cbn. unfold resume_initialize. cbn.
  destruct (let* wasmModule := outcome in env_new_processor env wasmModule);
    cbn; repeat split.
Qed.

(** ** The hook's operations *)

(** When the underlying call is rejected, the hook's [denoise] is rejected
    with the same error, stores it in [error] and resets [isProcessing];
    the microphone session is not touched. *)
Theorem hook_denoise_rejection (env : Env) (hook_model : option ArrayBuffer)
    (input : Input) (denoiseOptions : option DenoiseOptions) (h : Hook) (w w' : World)
    (e : Error) :
  denoise env input (merged_options hook_model denoiseOptions) w = (w', Some (Throw e)) ->
  exists h',
    denoiseAudio env hook_model input denoiseOptions h w = (h', w', Some (Throw e))
    /\ error h' = Some e /\ isProcessing h' = false /\ isReady h' = isReady h
    /\ microphoneStreamRef h' = microphoneStreamRef h /\ stops h' = stops h.
Proof.
  intros Hd. unfold denoiseAudio. rewrite Hd. eexists. split; [reflexivity|].
  cbn. repeat split.
Qed.

(** [null], as in the hook's test suite. *)
Lemma hook_denoise_rejection_witness :
  exists h',
    denoiseAudio echo_env None VNull None init_hook (exec echo_env [])
    = (h', exec echo_env [], Some (Throw invalid_input))
    /\ error h' = Some invalid_input.
Proof.
  destruct (hook_denoise_rejection echo_env None VNull None init_hook
              (exec echo_env []) _ _ eq_refl) as (h' & H & He & _).
  exists h'. now split.
Defined.

(** The hook replaces the [model] of the caller's options by its own, even
    when it has none: two calls that differ only in that option behave
    alike. *)
Theorem hook_ignores_callers_model (env : Env) (hook_model : option ArrayBuffer)
    (input : Input) (d : DenoiseOptions) (model' : option ArrayBuffer)
    (h : Hook) (w : World) :
  denoiseAudio env hook_model input
    (Some (MkOptions (sampleRate d) (returnType d) model' (duration d))) h w
  = denoiseAudio env hook_model input (Some d) h w.
Proof. reflexivity. Qed.

(** X20.  [stopMicrophone()] in any state: the handle is cleared, each track of
    the stored stream is stopped as many times as [getTracks()] lists it,
    the rest of the state stays, and a second call changes nothing. *)
Theorem stopMicrophone_effect (h : Hook) :
  let h' := stopMicrophone h in
  microphoneStreamRef h' = None
  /\ (forall t, stop_count h' t
                = (stop_count h t
                   + match microphoneStreamRef h with
                     | Some s => count_occ Nat.eq_dec (stream_tracks s) t
                     | None => 0
                     end)%nat)
  /\ isReady h' = isReady h /\ isProcessing h' = isProcessing h
  /\ error h' = error h /\ audioContextRef h' = audioContextRef h
  /\ stopMicrophone h' = h'.
Proof.
  intros h'. subst h'. unfold stopMicrophone, stop_count.
  destruct (microphoneStreamRef h) as [s|] eqn:Hs; cbn.
  - repeat split. intros t. apply stop_all_count.
  - rewrite Hs. repeat split. intros t. lia.
Qed.

(** X21.  A second [startMicrophone()] while a session is active overwrites the
    stored handle: the next [stopMicrophone()] stops the tracks of the
    second stream only, and those of the first stream that the second does
    not share keep running. *)
Theorem second_start_leaks_first_stream (env1 env2 : Env) (h : Hook)
    (s1 s2 : MediaStream) :
  env_getUserMedia env1 = Ok s1 ->
  env_getUserMedia env2 = Ok s2 ->
  let h2 := fst (startMicrophone env2 (fst (startMicrophone env1 h))) in
  let h3 := stopMicrophone h2 in
  microphoneStreamRef h2 = Some s2
  /\ microphoneStreamRef h3 = None
  /\ forall t, ~ In t (stream_tracks s2) -> stop_count h3 t = stop_count h t.
Proof.
  intros H1 H2 h2 h3. subst h2 h3. unfold startMicrophone. rewrite H1, H2. cbn.
  repeat split. intros t Ht. unfold stop_count. cbn. rewrite stop_all_count.
  apply (count_occ_not_In Nat.eq_dec) in Ht. lia.
Qed.

Lemma second_start_leaks_first_stream_witness :
  let env s := MkEnv (Ok (wasm_module 0)) (fun _ => Ok (denoise_processor 0))
                 (fun _ => Throw (MkError "Unable to decode audio data"))
                 (Num.of_Z 48000) (fun _ => [])
                 (fun _ audioData _ => Ok (buffer_of audioData))
                 (Ok s) (MkMediaStream 9 []) in
  let s1 := MkMediaStream 1 [3%nat] in
  let s2 := MkMediaStream 2 [5%nat] in
  let h3 := stopMicrophone
              (fst (startMicrophone (env s2) (fst (startMicrophone (env s1) init_hook)))) in
  stop_count h3 3 = 0%nat /\ stop_count h3 5 = 1%nat.
Proof.
  intros env s1 s2 h3.
  destruct (second_start_leaks_first_stream (env s1) (env s2) init_hook s1 s2
              eq_refl eq_refl) as (_ & _ & H).
  split; [| reflexivity].
  fold h3 in H. rewrite (H 3%nat); [reflexivity|].
  cbn. intros [E | []]. discriminate E.
Defined.

(** [startMicrophone()]: when permission is refused the call is rejected
    with the platform's error, which is stored in [error], and the stored
    handle and the stop counts stay as they were; when it is granted the
    stream is stored, an audio context exists, the pass-through stream is
    returned, and an earlier [error] is not cleared. *)
Theorem startMicrophone_effect (env : Env) (h : Hook) :
  let h' := fst (startMicrophone env h) in
  stops h' = stops h /\ isReady h' = isReady h /\ isProcessing h' = isProcessing h
  /\ match env_getUserMedia env with
     | Throw e =>
         snd (startMicrophone env h) = Throw e /\ error h' = Some e
         /\ microphoneStreamRef h' = microphoneStreamRef h
         /\ audioContextRef h' = audioContextRef h
     | Ok stream =>
         snd (startMicrophone env h) = Ok (env_destination env)
         /\ error h' = error h
         /\ microphoneStreamRef h' = Some stream /\ audioContextRef h' = true
     end.
Proof.
  intros h'. subst h'. unfold startMicrophone.
  destruct (env_getUserMedia env); cbn; repeat split.
Qed.

(** How the wait ends tells the state it leaves. *)
Lemma await_ready_outcome env w :
  Phase w ->
  (snd (await_ready env w) = Some (Ok tt) /\ _ready (ns (fst (await_ready env w))) = true)
  \/ exists e p,
       snd (await_ready env w) = Some (Throw e)
       /\ _ready (ns (fst (await_ready env w))) = false
       /\ _readyPromise (ns (fst (await_ready env w))) = Some p
       /\ promises (fst (await_ready env w)) !! p = Some (Rejected e).
Proof.
  intros HP. unfold await_ready.
  destruct HP as [Hm Hr Hp Hs Hl | p Hm Hr Hp Hs Hl Hst | p pr Hm Hr Hp Hs Hl Hst
                 | p e Hm Hr Hp Hs Hl Hst]; unfold ready; rewrite Hr.
  - rewrite Hm. cbn. unfold await. cbn [promises]. rewrite lookup_snoc_new.
    unfold resume_initialize. cbn [suspended]. rewrite Hs. cbn [app].
    destruct (let* wasmModule := env_load env in env_new_processor env wasmModule)
      as [pr | e]; cbn;
      rewrite list_lookup_insert_eq by (rewrite length_app; cbn; lia).
    + now left.
    + right. exists e, (length (promises w)). repeat split; try assumption.
      apply list_lookup_insert_eq. rewrite length_app. cbn. lia.
  - rewrite Hm. cbn. unfold await. rewrite Hst.
    unfold resume_initialize. rewrite Hs.
    pose proof (lookup_lt_Some _ _ _ Hst) as Hlt.
    destruct (let* wasmModule := env_load env in env_new_processor env wasmModule)
      as [pr | e]; cbn; rewrite list_lookup_insert_eq by exact Hlt.
    + now left.
    + right. exists e, p. repeat split; try assumption.
      now apply list_lookup_insert_eq.
  - left. cbn. unfold await. cbn [promises]. rewrite lookup_snoc_new. cbn.
    rewrite lookup_snoc_new. now split.
  - right. rewrite Hm. cbn. unfold await. rewrite Hst. cbn. rewrite Hst.
    exists e, p. now repeat split.
Qed.

Lemma await_ready_when_failed env w p e :
  _ready (ns w) = false -> _readyPromise (ns w) = Some p ->
  promises w !! p = Some (Rejected e) ->
  await_ready env w = (w, Some (Throw e)).
Proof.
  intros Hr Hm Hst. unfold await_ready, ready. rewrite Hr, Hm.
  unfold await. rewrite Hst. cbn. now rewrite Hst.
Qed.

(** X22.  Two hooks that mount one after the other share one initialization: the
    loader is called once, and either both become ready, keeping their
    [error], or both get the same initialization error and stay not
    ready. *)
Theorem mounts_share_initialization (env : Env) (evs : list Event) (h1 h2 : Hook) :
  let m1 := mount_initialize env h1 (exec env evs) in
  let m2 := mount_initialize env h2 (snd m1) in
  loads (snd m2) = 1%nat
  /\ ((isReady (fst m1) = true /\ isReady (fst m2) = true
       /\ error (fst m1) = error h1 /\ error (fst m2) = error h2)
      \/ exists e,
           error (fst m1) = Some e /\ error (fst m2) = Some e
           /\ isReady (fst m1) = isReady h1 /\ isReady (fst m2) = isReady h2).
Proof.
  intros m1 m2. subst m1 m2. unfold mount_initialize.
  pose proof (await_ready_Settled env _ (exec_Phase env evs)) as (Hl & _).
  destruct (await_ready_outcome env _ (exec_Phase env evs))
    as [(Hr & Hrd) | (e & p & Hr & Hrd & Hm & Hst)];
    destruct (await_ready env (exec env evs)) as [w1 r]; cbn in Hl, Hr, Hrd; subst r;
    cbn [fst snd].
  - rewrite (await_ready_when_ready env w1 Hrd). cbn. split; [exact Hl|].
    left. now repeat split.
  - cbn in Hm, Hst. rewrite (await_ready_when_failed env w1 p e Hrd Hm Hst). cbn.
    split; [exact Hl|]. right. exists e. now repeat split.
Qed.

(** X23.  The cleanup on unmount stops the tracks of the stored stream and closes
    the context if there is one, but keeps the handle: unmounting after
    [stopMicrophone()] stops nothing, while a [stopMicrophone()] that runs
    after the unmount stops every track a second time. *)
Theorem unmount_keeps_handle (h : Hook) :
  let h' := fst (unmount_cleanup h) in
  snd (unmount_cleanup h) = audioContextRef h
  /\ microphoneStreamRef h' = microphoneStreamRef h
  /\ fst (unmount_cleanup (stopMicrophone h)) = stopMicrophone h
  /\ forall t,
       stop_count h' t
       = (stop_count h t
          + match microphoneStreamRef h with
            | Some s => count_occ Nat.eq_dec (stream_tracks s) t
            | None => 0
            end)%nat
       /\ stop_count (stopMicrophone h') t
          = (stop_count h t
             + 2 * match microphoneStreamRef h with
                   | Some s => count_occ Nat.eq_dec (stream_tracks s) t
                   | None => 0
                   end)%nat.
Proof.
  intros h'. subst h'. split; [reflexivity|].
  unfold unmount_cleanup, stopMicrophone, stop_count.
  destruct (microphoneStreamRef h) as [s|] eqn:Hs; cbn; rewrite ?Hs; cbn.
  - repeat split; intros; rewrite ?stop_all_count; lia.
  - repeat split; intros; lia.
Qed.

(** ** The component's handlers *)




(** ** What the component shows *)

Lemma dispatch_without_main env props ev c w :
  isReady (hook c) = false \/ error (hook c) <> None ->
  exists c',
    dispatch env props ev c w = Some (c', w, [])
    /\ isReady (hook c') = isReady (hook c) /\ error (hook c') = error (hook c)
    /\ render props c' = render props c.
Proof.
  intros Hc.
  assert (Hv : render props c = LoadingView
               \/ exists text, render props c = ErrorView text).
  { unfold render. destruct (isReady (hook c)); cbn; [| now left].
    destruct (error (hook c)) as [e|]; [right; eauto | destruct Hc; congruence]. }
  assert (Hstop : forall c0, isReady (hook (auto_stop c0)) = isReady (hook c0)
                             /\ error (hook (auto_stop c0)) = error (hook c0)).
  { intros c0. cbn. unfold stopMicrophone.
    destruct (microphoneStreamRef (hook c0)); now cbn. }
  destruct ev; unfold dispatch.
  6: { destruct (timeouts c).
       - exists c. now repeat split.
       - exists (auto_stop c). destruct (Hstop c) as (H1 & H2).
         split; [reflexivity|]. split; [exact H1|]. split; [exact H2|].
         unfold render. rewrite H1, H2.
         destruct (isReady (hook c)); cbn; [| reflexivity].
         destruct (error (hook c)); [reflexivity | destruct Hc; congruence]. }
  all: destruct Hv as [Hv | (text & Hv)]; rewrite Hv; try (destruct files);
    exists c; now repeat split.
Qed.

(** X25.  The loading text and the error box render no element with a
    handler: while the component shows one of them, no drop, drag, file
    selection or click, and no timeout, changes what it shows, reaches the
    engine or calls a callback.  Only what is already in flight can change
    the view: the mount's initialization when it ends, a batch of files
    when it moves on to its next file. *)
Theorem view_without_controls_is_final (env : Env) (props : Props) (w : World) :
  forall (evs : list UIEvent) (c : Component),
  isReady (hook c) = false \/ error (hook c) <> None ->
  exists c',
    dispatch_all env props evs c w = Some (c', w, [])
    /\ render props c' = render props c
    /\ match render props c with MainView _ _ => False | _ => True end.
Proof.
  induction evs as [|ev evs IH]; intros c Hc.
  - exists c. repeat split. unfold render.
    destruct (isReady (hook c)); cbn; [| exact I].
    destruct (error (hook c)); [exact I | destruct Hc; congruence].
  - destruct (dispatch_without_main env props ev c w Hc) as (c1 & Hd & Hr & He & Hv).
    destruct (IH c1) as (c' & Hall & Hv' & Hm); [rewrite Hr, He; exact Hc|].
    exists c'. cbn [dispatch_all]. rewrite Hd, Hall. rewrite <- Hv.
    now repeat split.
Qed.

(** A hook whose mount found the loader failing, then a drop and a click. *)
Lemma view_without_controls_is_final_witness :
  let env := MkEnv (Throw (MkError "wasm failed to load"))
               (fun _ => Ok (denoise_processor 0))
               (fun _ => Throw (MkError "Unable to decode audio data")) (Num.of_Z 48000)
               (fun _ => []) (fun _ audioData _ => Ok (buffer_of audioData))
               (Throw (MkError "Permission denied")) (MkMediaStream 0 []) in
  let props := MkProps true true (MkLabels None None None None) in
  let m := mount_initialize env init_hook (exec env []) in
  let c := set_hook (fst m) init_component in
  error (hook c) = Some (MkError "wasm failed to load")
  /\ option_map (fun r => render props (fst (fst r)))
       (dispatch_all env props
          [Drop (Some [MkFile "a.wav" (MkBlob [1] "audio/wav")]); ClickMicrophone]
          c (snd m))
     = Some LoadingView.
Proof.
  intros env props m c. split; [reflexivity|].
  destruct (view_without_controls_is_final env props (snd m)
              [Drop (Some [MkFile "a.wav" (MkBlob [1] "audio/wav")]); ClickMicrophone]
              c (or_introl eq_refl)) as (c' & H & Hv & _).
  rewrite H. cbn [option_map fst]. now rewrite Hv.
Defined.

(** X26.  When the microphone button is clicked and permission is refused, the
    error goes to [onError] and the whole widget turns into the error box
    with the platform's message; no session and no timeout is started. *)
Theorem microphone_denial_shows_error (env : Env) (props : Props) (c : Component)
    (w : World) (e : Error) :
  isReady (hook c) = true -> error (hook c) = None ->
  isProcessing (hook c) = false ->
  enableMicrophone props = true -> isMicrophoneActive c = false ->
  env_getUserMedia env = Throw e ->
  exists c',
    dispatch env props ClickMicrophone c w = Some (c', w, call_onError props e)
    /\ render props c'
       = ErrorView (label_or (label_error (labels props)) "Error: " ++ " " ++ message e)
    /\ isMicrophoneActive c' = false /\ timeouts c' = timeouts c
    /\ microphoneStreamRef (hook c') = microphoneStreamRef (hook c).
Proof.
  intros Hr He Hp Hmic Hact Hg.
  unfold dispatch, render. rewrite Hr, He, Hmic, Hp. cbn.
  unfold handleMicrophoneToggle, startMicrophone. rewrite Hact, Hg. cbn.
  eexists. split; [reflexivity|]. cbn. rewrite Hr. cbn. now repeat split.
Qed.

Lemma microphone_denial_shows_error_witness :
  let props := MkProps true true (MkLabels None None None None) in
  let c := set_hook (MkHook true false None None false ∅) init_component in
  option_map (fun r => (render props (fst (fst r)), snd r))
    (dispatch echo_env props ClickMicrophone c init_world)
  = Some (ErrorView "Error:  Permission denied",
          [OnError (MkError "Permission denied")]).
Proof.
  intros props c.
  destruct (microphone_denial_shows_error echo_env props c init_world
              (MkError "Permission denied") eq_refl eq_refl eq_refl eq_refl eq_refl
              eq_refl) as (c' & H & Hv & _).
  rewrite H. cbn [option_map fst snd]. now rewrite Hv.
Defined.

Lemma dispatch_click env props c w :
  isReady (hook c) = true -> error (hook c) = None ->
  isProcessing (hook c) = false -> enableMicrophone props = true ->
  dispatch env props ClickMicrophone c w
  = Some (fst (handleMicrophoneToggle env props c), w,
          snd (handleMicrophoneToggle env props c)).
Proof.
  intros Hr He Hp Hmic. unfold dispatch, render. rewrite Hr, He, Hmic, Hp. cbn.
  now destruct (handleMicrophoneToggle env props c).
Qed.

(** X27.  The auto-stop timeout is never cancelled.  Start, stop by hand, start
    again: the timeout of the first session is still scheduled, and when it
    fires it ends the second session, stopping its tracks, while the second
    session's own timeout stays scheduled. *)
Theorem stale_timeout_ends_later_session (env1 env2 : Env) (props : Props)
    (c : Component) (w : World) (s1 s2 : MediaStream) :
  isReady (hook c) = true -> error (hook c) = None ->
  isProcessing (hook c) = false ->
  enableMicrophone props = true -> isMicrophoneActive c = false ->
  timeouts c = 0%nat ->
  env_getUserMedia env1 = Ok s1 -> env_getUserMedia env2 = Ok s2 ->
  exists c1 c2 c3 c4,
    dispatch env1 props ClickMicrophone c w = Some (c1, w, [])
    /\ dispatch env1 props ClickMicrophone c1 w = Some (c2, w, [])
    /\ dispatch env2 props ClickMicrophone c2 w = Some (c3, w, [])
    /\ dispatch env2 props Timeout c3 w = Some (c4, w, [])
    /\ timeouts c2 = 1%nat
    /\ isMicrophoneActive c3 = true /\ microphoneStreamRef (hook c3) = Some s2
    /\ isMicrophoneActive c4 = false /\ microphoneStreamRef (hook c4) = None
    /\ timeouts c4 = 1%nat
    /\ forall t, stop_count (hook c4) t
                 = (stop_count (hook c) t
                    + count_occ Nat.eq_dec (stream_tracks s1) t
                    + count_occ Nat.eq_dec (stream_tracks s2) t)%nat.
Proof.
  intros Hr He Hp Hmic Hact Ht H1 H2.
  pose (h1 := MkHook (isReady (hook c)) (isProcessing (hook c)) (error (hook c))
                (Some s1) true (stops (hook c))).
  pose (c1 := MkComponent h1 (isDragging c) true (processingFile c) 1).
  pose (c2 := MkComponent (stopMicrophone h1) (isDragging c) false (processingFile c) 1).
  pose (h3 := MkHook (isReady (hook c)) (isProcessing (hook c)) (error (hook c))
                (Some s2) true (stop_all s1 (stops (hook c)))).
  pose (c3 := MkComponent h3 (isDragging c) true (processingFile c) 2).
  assert (T1 : handleMicrophoneToggle env1 props c = (c1, [])).
  { unfold handleMicrophoneToggle, startMicrophone. now rewrite Hact, H1, Ht. }
  assert (T2 : handleMicrophoneToggle env1 props c1 = (c2, [])) by reflexivity.
  assert (T3 : handleMicrophoneToggle env2 props c2 = (c3, [])).
  { unfold handleMicrophoneToggle, startMicrophone. cbn. now rewrite H2. }
  exists c1, c2, c3, (auto_stop c3).
  split; [rewrite dispatch_click, T1 by assumption; reflexivity|].
  split; [rewrite dispatch_click, T2 by assumption; reflexivity|].
  split; [rewrite dispatch_click, T3 by assumption; reflexivity|].
  split; [reflexivity|].
  repeat split. intros t. unfold stop_count. cbn. rewrite !stop_all_count. reflexivity.
Qed.

Lemma stale_timeout_ends_later_session_witness :
  let env s := MkEnv (Ok (wasm_module 0)) (fun _ => Ok (denoise_processor 0))
                 (fun _ => Throw (MkError "Unable to decode audio data"))
                 (Num.of_Z 48000) (fun _ => [])
                 (fun _ audioData _ => Ok (buffer_of audioData))
                 (Ok s) (MkMediaStream 9 []) in
  let props := MkProps true true (MkLabels None None None None) in
  let c := set_hook (MkHook true false None None false ∅) init_component in
  exists c4,
    dispatch_all (env (MkMediaStream 2 [5%nat])) props [ClickMicrophone; Timeout]
      (fst (handleMicrophoneToggle (env (MkMediaStream 1 [3%nat])) props
              (fst (handleMicrophoneToggle (env (MkMediaStream 1 [3%nat])) props c))))
      init_world
    = Some (c4, init_world, [])
    /\ isMicrophoneActive c4 = false /\ stop_count (hook c4) 5 = 1%nat.
Proof.
  intros env props c.
  destruct (stale_timeout_ends_later_session (env (MkMediaStream 1 [3%nat]))
              (env (MkMediaStream 2 [5%nat])) props c init_world
              (MkMediaStream 1 [3%nat]) (MkMediaStream 2 [5%nat])
              eq_refl eq_refl eq_refl eq_refl eq_refl eq_refl eq_refl eq_refl)
    as (c1 & c2 & c3 & c4 & _ & _ & _ & _ & _ & _ & _ & _ & _ & _ & Hc).
  eexists. split; [reflexivity|]. split; reflexivity.
Defined.

(** ** The raw variant *)

(** X29.  In the raw version a fulfilled call with [returnType: "blob"] wraps the
    engine's bytes as they are in an ["audio/raw"] blob: there is no
    header, and the engine got the caller's options unchanged. *)
Theorem raw_blob_is_engine_bytes (env : Env) (input : Input) (options : DenoiseOptions)
    (w w' : World) (out : Output) :
  returnType options = Some blob ->
  Raw.denoise env input options w = (w', Some (Ok out)) ->
  exists audioData processor denoised,
    Raw.normalize_input env input options = Some (Ok audioData)
    /\ env_process env processor audioData options = Ok denoised
    /\ out = RBlob (MkBlob denoised "audio/raw").
Proof.
  intros Hrt. unfold Raw.denoise. destruct (negb (input_truthy input)); [discriminate|].
  destruct (await_ready env w) as [w1 [[[]|e]|]]; try discriminate.
  unfold Raw.denoise_body.
  destruct (Raw.normalize_input env input options) as [[audioData|e]|];
    try discriminate.
  destruct (Nat.eqb (length audioData) 0); [discriminate|].
  destruct (_processor (ns w1)) as [processor|]; [|discriminate].
  destruct (env_process env processor audioData options) as [denoised|e] eqn:Hp;
    cbn [bind]; [|discriminate].
  unfold Raw.format_output. rewrite Hrt. intros H.
  exists audioData, processor, denoised. repeat split; [exact Hp | congruence].
Qed.

Lemma raw_blob_is_engine_bytes_witness :
  snd (Raw.denoise echo_env (VBlob (MkBlob [0; 0; 128; 63] "audio/raw"))
         (MkOptions None (Some blob) None None) (exec echo_env []))
  = Some (Ok (RBlob (MkBlob [0; 0; 128; 63] "audio/raw"))).
Proof.
  destruct (raw_blob_is_engine_bytes echo_env
              (VBlob (MkBlob [0; 0; 128; 63] "audio/raw"))
              (MkOptions None (Some blob) None None) (exec echo_env []) _ _
              eq_refl eq_refl) as (a & pr & d & _ & _ & H).
  reflexivity.
Defined.
